(** * Task/subject state synchronisation of the academic manager

    A shallow embedding of the two React components of the repository:

    - [PartitionedManager]: the component of [src/unnamed/part_000], which
      keeps the full task mirror [tasks] next to the two partitions
      [completedTasks] and [notCompletedTasks];
    - [TaskManager]: the component of [src/src/components/task-manager.tsx],
      which keeps only [subjects] and [tasks].

    An event handler is an [async] function.  It is embedded as a program of
    the small monad [Prog]: it awaits requests to the remote store, throws,
    catches, logs to the console and calls React state setters.  The values a
    handler reads from its closure (the state of the render that created it)
    are its first argument; the setters act on the state that is current when
    they run. *)

From Stdlib Require Import String Ascii List Bool Arith Lia.
From stdpp Require Import base decidable option list sets gmap strings.

Import ListNotations.
Local Open Scope string_scope.

(** ** JavaScript strings and truthiness *)

(** Strings are sequences of code units below 256.  [isWhiteSpace] is the
    ECMAScript WhiteSpace and LineTerminator set restricted to that range:
    TAB, LF, VT, FF, CR, SP and NBSP. *)
Definition isWhiteSpace (c : ascii) : bool :=
  let n := nat_of_ascii c in
  (Nat.eqb n 9 || Nat.eqb n 10 || Nat.eqb n 11 || Nat.eqb n 12
   || Nat.eqb n 13 || Nat.eqb n 32 || Nat.eqb n 160)%bool.

Fixpoint trimStart (s : string) : string :=
  match s with
  | EmptyString => EmptyString
  | String c r => if isWhiteSpace c then trimStart r else s
  end.

Fixpoint trimEnd (s : string) : string :=
  match s with
  | EmptyString => EmptyString
  | String c r =>
      match trimEnd r with
      | EmptyString => if isWhiteSpace c then EmptyString else String c EmptyString
      | r' => String c r'
      end
  end.

(** [String.prototype.trim] *)
Definition trim (s : string) : string := trimEnd (trimStart s).
#[global] Arguments trim : simpl never.

(** A string is truthy when it is not empty. *)
Definition truthy (s : string) : bool :=
  match s with
  | EmptyString => false
  | String _ _ => true
  end.

(** [a || b] on strings. *)
Definition or_else (a b : string) : string := if truthy a then a else b.

(** [o || b] where [o] is a string or [undefined] (the result of [?.]). *)
Definition or_else_undefined (o : option string) (b : string) : string :=
  match o with
  | Some a => or_else a b
  | None => b
  end.

(** [data || []] where [data] is an array or [null]. *)
Definition or_empty {A} (data : option (list A)) : list A :=
  match data with
  | Some l => l
  | None => []
  end.

(** [a === b] on strings. *)
Definition strict_eq (a b : string) : bool := String.eqb a b.
#[global] Arguments strict_eq : simpl never.

(** [a === b] where [b] is [string | null]. *)
Definition strict_eq_nullable (a : string) (b : option string) : bool :=
  match b with
  | Some b' => strict_eq a b'
  | None => false
  end.

(** ** The data model *)

Module Subject.
Record t : Type := mk {
  id : string;
  name : string;
  color : string;
  created_at : string
}.
End Subject.

Module Task.
Record t : Type := mk {
  id : string;
  subject_id : string;
  name : string;
  completed : bool;
  created_at : string;
  subjects : option Subject.t
}.

(** [{ ...task, completed }] *)
Definition with_completed (task : t) (c : bool) : t :=
  mk (id task) (subject_id task) (name task) c (created_at task) (subjects task).

(** [{ ...task, name: updatedName, subject_id: updatedSubjectId }] *)
Definition with_name_subject (task : t) (updatedName updatedSubjectId : string) : t :=
  mk (id task) updatedSubjectId updatedName (completed task) (created_at task)
     (subjects task).
End Task.

#[global] Instance Subject_eq_dec : EqDecision Subject.t.
Proof. solve_decision. Defined.

#[global] Instance Task_eq_dec : EqDecision Task.t.
Proof. solve_decision. Defined.

(** ** The remote store *)

(** The queries the components build with the generated client. *)
Inductive Request : Type :=
  | SelectSubjects
      (* from("subjects").select("*").order("created_at", {ascending: true}) *)
  | SelectTasks
      (* from("tasks").select("*, subjects (id, name, color)")
         .order("created_at", {ascending: false}) *)
  | InsertSubject (name color : string)
      (* from("subjects").insert([{name, color}]).select().single() *)
  | InsertTask (name subject_id : string) (completed : bool)
      (* from("tasks").insert([{name, subject_id, completed}]).select(..).single() *)
  | UpdateTask (id : option string) (name subject_id : string)
      (* from("tasks").update({name, subject_id}).eq("id", taskEditId) *)
  | UpdateCompleted (id : string) (completed : bool)
      (* from("tasks").update({completed}).eq("id", taskId) *)
  | DeleteTask (id : string).
      (* from("tasks").delete().eq("id", taskId) *)

#[global] Instance Request_eq_dec : EqDecision Request.
Proof. solve_decision. Defined.

(** The type of [data] in the answer to a request. *)
Definition Data (r : Request) : Type :=
  match r with
  | SelectSubjects => option (list Subject.t)
  | SelectTasks => option (list Task.t)
  | InsertSubject _ _ => Subject.t
  | InsertTask _ _ _ => Task.t
  | UpdateTask _ _ _ => unit
  | UpdateCompleted _ _ => unit
  | DeleteTask _ => unit
  end.

(** The awaited [{ data, error }]: either [error] is set, or [data] is. *)
Inductive Response (A : Type) : Type :=
  | Failure (error : string)
  | Success (data : A).
Arguments Failure {A} error.
Arguments Success {A} data.

(** The store, seen from the client: an answer to every request. *)
Definition Store : Type := forall r : Request, Response (Data r).

Definition fails (store : Store) (r : Request) : bool :=
  match store r with
  | Failure _ => true
  | Success _ => false
  end.

(** ** Handler programs *)

Inductive Prog (S A : Type) : Type :=
  | Ret (a : A)
  | Throw (error : string)
  | SetState (update : S -> S) (k : Prog S A)
  | ConsoleError (msg : string) (k : Prog S A)
  | Await (r : Request) (k : Response (Data r) -> Prog S A).
Arguments Ret {S A} a.
Arguments Throw {S A} error.
Arguments SetState {S A} update k.
Arguments ConsoleError {S A} msg k.
Arguments Await {S A} r k.

Fixpoint bind {S A B} (p : Prog S A) (f : A -> Prog S B) : Prog S B :=
  match p with
  | Ret a => f a
  | Throw e => Throw e
  | SetState u k => SetState u (bind k f)
  | ConsoleError m k => ConsoleError m (bind k f)
  | Await r k => Await r (fun x => bind (k x) f)
  end.

(** [try { p } catch (error) { h error }] *)
Fixpoint try_catch {S A} (p : Prog S A) (h : string -> Prog S A) : Prog S A :=
  match p with
  | Ret a => Ret a
  | Throw e => h e
  | SetState u k => SetState u (try_catch k h)
  | ConsoleError m k => ConsoleError m (try_catch k h)
  | Await r k => Await r (fun x => try_catch (k x) h)
  end.

(** [try { p } finally { f }]: [f] runs however [p] ends. *)
Fixpoint finally {S A} (p : Prog S A) (f : Prog S unit) : Prog S A :=
  match p with
  | Ret a => bind f (fun _ => Ret a)
  | Throw e => bind f (fun _ => Throw e)
  | SetState u k => SetState u (finally k f)
  | ConsoleError m k => ConsoleError m (finally k f)
  | Await r k => Await r (fun x => finally (k x) f)
  end.

#[global] Instance Prog_ret {S} : MRet (Prog S) := fun A a => Ret a.
#[global] Instance Prog_bind {S} : MBind (Prog S) := fun A B f p => bind p f.

(** A setter call, and [await] of a query. *)
Definition set_state {S} (update : S -> S) : Prog S unit := SetState update (Ret tt).
Definition await {S} (r : Request) : Prog S (Response (Data r)) := Await r Ret.
Definition console_error {S} (msg : string) : Prog S unit := ConsoleError msg (Ret tt).

(** [if (error) throw error], giving [data] otherwise. *)
Definition unwrap {S A} (r : Response A) : Prog S A :=
  match r with
  | Failure error => Throw error
  | Success data => Ret data
  end.

(** The state after a handler has run against a store. *)
Fixpoint exec {S A} (p : Prog S A) (store : Store) (s : S) : S :=
  match p with
  | Ret _ => s
  | Throw _ => s
  | SetState u k => exec k store (u s)
  | ConsoleError _ k => exec k store s
  | Await r k => exec (k (store r)) store s
  end.

(** The requests a handler sends, in order. *)
Fixpoint requests {S A} (p : Prog S A) (store : Store) : list Request :=
  match p with
  | Ret _ => []
  | Throw _ => []
  | SetState _ k => requests k store
  | ConsoleError _ k => requests k store
  | Await r k => r :: requests (k (store r)) store
  end.

(** What a handler writes to the console, in order. *)
Fixpoint console {S A} (p : Prog S A) (store : Store) : list string :=
  match p with
  | Ret _ => []
  | Throw _ => []
  | SetState _ k => console k store
  | ConsoleError m k => m :: console k store
  | Await r k => console (k (store r)) store
  end.

(** The error a handler ends with when nothing caught it (the rejection of
    the promise the [async] function returns), if any. *)
Fixpoint uncaught {S A} (p : Prog S A) (store : Store) : option string :=
  match p with
  | Ret _ => None
  | Throw error => Some error
  | SetState _ k => uncaught k store
  | ConsoleError _ k => uncaught k store
  | Await r k => uncaught (k (store r)) store
  end.

(** No setter runs before the first request is awaited. *)
Fixpoint awaits_before_mutating {S A} (p : Prog S A) : bool :=
  match p with
  | Ret _ => true
  | Throw _ => true
  | SetState _ _ => false
  | ConsoleError _ k => awaits_before_mutating k
  | Await _ _ => true
  end.

(** The argument of a React setter: a value, or an updater of the pending
    state. *)
Inductive SetStateAction (A : Type) : Type :=
  | Value (v : A)
  | Updater (f : A -> A).
Arguments Value {A} v.
Arguments Updater {A} f.

Definition apply_action {A} (a : SetStateAction A) (prev : A) : A :=
  match a with
  | Value v => v
  | Updater f => f prev
  end.

(** [colors] of [addSubject], and the index
    [Math.floor(Math.random() * colors.length)], which is below
    [colors.length] whatever [Math.random()] gives: [random] stands for the
    random source. *)
Definition colors : list string :=
  ["#ef4444"; "#10b981"; "#f59e0b"; "#8b5cf6"; "#06b6d4"; "#f97316"].

Definition randomColor (random : nat) : string :=
  nth (random mod length colors) colors "".
#[global] Arguments randomColor : simpl never.

(** ** The component with partitions ([src/unnamed/part_000]) *)

Module PartitionedManager.

(** The [useState] cells of the component. *)
Record State : Type := mkState {
  subjects : list Subject.t;
  tasks : list Task.t;
  completedTasks : list Task.t;
  notCompletedTasks : list Task.t;
  newSubjectName : string;
  newTaskName : string;
  selectedSubjectId : string;
  loading : bool;
  addSubjectModalOpen : bool;
  addTaskModalOpen : bool;
  completedTasksToggle : bool;
  editTaskModalOpen : bool;
  taskEditId : option string
}.

(** The initial values given to [useState]. *)
Definition initial : State :=
  mkState [] [] [] [] "" "" "" true false false false false None.

Definition setSubjects (a : SetStateAction (list Subject.t)) (s : State) : State :=
  mkState (apply_action a (subjects s)) (tasks s) (completedTasks s)
    (notCompletedTasks s) (newSubjectName s) (newTaskName s) (selectedSubjectId s)
    (loading s) (addSubjectModalOpen s) (addTaskModalOpen s)
    (completedTasksToggle s) (editTaskModalOpen s) (taskEditId s).

Definition setTasks (a : SetStateAction (list Task.t)) (s : State) : State :=
  mkState (subjects s) (apply_action a (tasks s)) (completedTasks s)
    (notCompletedTasks s) (newSubjectName s) (newTaskName s) (selectedSubjectId s)
    (loading s) (addSubjectModalOpen s) (addTaskModalOpen s)
    (completedTasksToggle s) (editTaskModalOpen s) (taskEditId s).

Definition setCompletedTasks (a : SetStateAction (list Task.t)) (s : State) : State :=
  mkState (subjects s) (tasks s) (apply_action a (completedTasks s))
    (notCompletedTasks s) (newSubjectName s) (newTaskName s) (selectedSubjectId s)
    (loading s) (addSubjectModalOpen s) (addTaskModalOpen s)
    (completedTasksToggle s) (editTaskModalOpen s) (taskEditId s).

Definition setNotCompletedTasks (a : SetStateAction (list Task.t)) (s : State) : State :=
  mkState (subjects s) (tasks s) (completedTasks s)
    (apply_action a (notCompletedTasks s)) (newSubjectName s) (newTaskName s)
    (selectedSubjectId s) (loading s) (addSubjectModalOpen s) (addTaskModalOpen s)
    (completedTasksToggle s) (editTaskModalOpen s) (taskEditId s).

Definition setNewSubjectName (a : SetStateAction string) (s : State) : State :=
  mkState (subjects s) (tasks s) (completedTasks s) (notCompletedTasks s)
    (apply_action a (newSubjectName s)) (newTaskName s) (selectedSubjectId s)
    (loading s) (addSubjectModalOpen s) (addTaskModalOpen s)
    (completedTasksToggle s) (editTaskModalOpen s) (taskEditId s).

Definition setNewTaskName (a : SetStateAction string) (s : State) : State :=
  mkState (subjects s) (tasks s) (completedTasks s) (notCompletedTasks s)
    (newSubjectName s) (apply_action a (newTaskName s)) (selectedSubjectId s)
    (loading s) (addSubjectModalOpen s) (addTaskModalOpen s)
    (completedTasksToggle s) (editTaskModalOpen s) (taskEditId s).

Definition setSelectedSubjectId (a : SetStateAction string) (s : State) : State :=
  mkState (subjects s) (tasks s) (completedTasks s) (notCompletedTasks s)
    (newSubjectName s) (newTaskName s) (apply_action a (selectedSubjectId s))
    (loading s) (addSubjectModalOpen s) (addTaskModalOpen s)
    (completedTasksToggle s) (editTaskModalOpen s) (taskEditId s).

Definition setLoading (a : SetStateAction bool) (s : State) : State :=
  mkState (subjects s) (tasks s) (completedTasks s) (notCompletedTasks s)
    (newSubjectName s) (newTaskName s) (selectedSubjectId s)
    (apply_action a (loading s)) (addSubjectModalOpen s) (addTaskModalOpen s)
    (completedTasksToggle s) (editTaskModalOpen s) (taskEditId s).

Definition setAddSubjectModalOpen (a : SetStateAction bool) (s : State) : State :=
  mkState (subjects s) (tasks s) (completedTasks s) (notCompletedTasks s)
    (newSubjectName s) (newTaskName s) (selectedSubjectId s)
    (loading s) (apply_action a (addSubjectModalOpen s)) (addTaskModalOpen s)
    (completedTasksToggle s) (editTaskModalOpen s) (taskEditId s).

Definition setAddTaskModalOpen (a : SetStateAction bool) (s : State) : State :=
  mkState (subjects s) (tasks s) (completedTasks s) (notCompletedTasks s)
    (newSubjectName s) (newTaskName s) (selectedSubjectId s)
    (loading s) (addSubjectModalOpen s) (apply_action a (addTaskModalOpen s))
    (completedTasksToggle s) (editTaskModalOpen s) (taskEditId s).

Definition setCompletedTasksToggle (a : SetStateAction bool) (s : State) : State :=
  mkState (subjects s) (tasks s) (completedTasks s) (notCompletedTasks s)
    (newSubjectName s) (newTaskName s) (selectedSubjectId s)
    (loading s) (addSubjectModalOpen s) (addTaskModalOpen s)
    (apply_action a (completedTasksToggle s)) (editTaskModalOpen s) (taskEditId s).

Definition setEditTaskModalOpen (a : SetStateAction bool) (s : State) : State :=
  mkState (subjects s) (tasks s) (completedTasks s) (notCompletedTasks s)
    (newSubjectName s) (newTaskName s) (selectedSubjectId s)
    (loading s) (addSubjectModalOpen s) (addTaskModalOpen s)
    (completedTasksToggle s) (apply_action a (editTaskModalOpen s)) (taskEditId s).

Definition setTaskEditId (a : SetStateAction (option string)) (s : State) : State :=
  mkState (subjects s) (tasks s) (completedTasks s) (notCompletedTasks s)
    (newSubjectName s) (newTaskName s) (selectedSubjectId s)
    (loading s) (addSubjectModalOpen s) (addTaskModalOpen s)
    (completedTasksToggle s) (editTaskModalOpen s) (apply_action a (taskEditId s)).

(** In every handler [st] is the state the handler closes over. *)

Definition fetchData (st : State) : Prog State unit :=
  finally
    (try_catch
       (r1 ← await SelectSubjects;
        subjectsData ← unwrap r1;
        r2 ← await SelectTasks;
        tasksData ← unwrap r2;
        set_state (setSubjects (Value (or_empty subjectsData)));;
        set_state (setTasks (Value (or_empty tasksData)));;
        set_state (setCompletedTasks
          (Value (List.filter (fun task => Task.completed task) (or_empty tasksData))));;
        set_state (setNotCompletedTasks
          (Value (List.filter (fun task => negb (Task.completed task))
                    (or_empty tasksData))));;
        set_state (setLoading (Value false)))
       (fun error => console_error "Error fetching data:"))
    (set_state (setLoading (Value false))).

Definition addSubject (st : State) (random : nat) : Prog State unit :=
  if negb (truthy (trim (newSubjectName st))) then Ret tt else
  try_catch
    (r ← await (InsertSubject (trim (newSubjectName st)) (randomColor random));
     data ← unwrap r;
     set_state (setSubjects (Value (subjects st ++ [data])%list));;
     set_state (setAddSubjectModalOpen (Value false));;
     set_state (setNewSubjectName (Value "")))
    (fun error => console_error "Error adding subject:").

Definition addTask (st : State) : Prog State unit :=
  if (negb (truthy (trim (newTaskName st))) || negb (truthy (selectedSubjectId st)))%bool
  then Ret tt else
  try_catch
    (r ← await (InsertTask (trim (newTaskName st)) (selectedSubjectId st) false);
     data ← unwrap r;
     set_state (setTasks (Value (data :: tasks st)));;
     set_state (setNotCompletedTasks (Value (data :: notCompletedTasks st)));;
     set_state (setNewTaskName (Value ""));;
     set_state (setAddTaskModalOpen (Value false));;
     set_state (setSelectedSubjectId (Value "")))
    (fun error => console_error "Error adding task:").

Definition editTask (st : State) (updatedName updatedSubjectId : string)
  : Prog State unit :=
  try_catch
    (let updatedSubjectId :=
       or_else updatedSubjectId
         (or_else_undefined
            (Task.subject_id <$>
               List.find (fun task => strict_eq_nullable (Task.id task) (taskEditId st))
                 (tasks st))
            "") in
     let updatedName :=
       or_else updatedName
         (or_else_undefined
            (Task.name <$>
               List.find (fun task => strict_eq_nullable (Task.id task) (taskEditId st))
                 (tasks st))
            "") in
     r ← await (UpdateTask (taskEditId st) updatedName updatedSubjectId);
     _ ← unwrap r;
     set_state (setNotCompletedTasks (Updater (fun prevTasks =>
       List.map (fun task =>
         if strict_eq_nullable (Task.id task) (taskEditId st)
         then Task.with_name_subject task updatedName updatedSubjectId
         else task) prevTasks)));;
     set_state (setCompletedTasks (Updater (fun prevTasks =>
       List.map (fun task =>
         if strict_eq_nullable (Task.id task) (taskEditId st)
         then Task.with_name_subject task updatedName updatedSubjectId
         else task) prevTasks)));;
     set_state (setEditTaskModalOpen (Value false));;
     set_state (setTaskEditId (Value None));;
     set_state (setNewTaskName (Value ""));;
     set_state (setSelectedSubjectId (Value "")))
    (fun error => console_error "Error updating task:").

Definition deleteTask (st : State) (taskId : string) : Prog State unit :=
  try_catch
    (r ← await (DeleteTask taskId);
     _ ← unwrap r;
     set_state (setTasks (Value
       (List.filter (fun task => negb (strict_eq (Task.id task) taskId)) (tasks st))));;
     set_state (setNotCompletedTasks (Value
       (List.filter (fun task => negb (strict_eq (Task.id task) taskId))
          (notCompletedTasks st))));;
     set_state (setCompletedTasks (Value
       (List.filter (fun task => negb (strict_eq (Task.id task) taskId))
          (completedTasks st)))))
    (fun error => console_error "Error deleting task:").

Definition toggleTaskStatus (st : State) (taskId : string) (completed : bool)
  : Prog State unit :=
  try_catch
    (r ← await (UpdateCompleted taskId completed);
     _ ← unwrap r;
     set_state (setTasks (Updater (fun prevTasks =>
       List.map (fun task =>
         if strict_eq (Task.id task) taskId
         then Task.with_completed task completed else task) prevTasks)));;
     if completed then
       match List.find (fun task => strict_eq (Task.id task) taskId) (tasks st) with
       | Some updatedTask =>
           set_state (setCompletedTasks (Value
             (completedTasks st ++ [Task.with_completed updatedTask completed])%list));;
           set_state (setNotCompletedTasks (Value
             (List.filter (fun task => negb (strict_eq (Task.id task) taskId))
                (notCompletedTasks st))))
       | None => Ret tt
       end
     else
       match List.find (fun task => strict_eq (Task.id task) taskId) (tasks st) with
       | Some updatedTask =>
           set_state (setNotCompletedTasks (Value
             (notCompletedTasks st ++ [Task.with_completed updatedTask completed])%list));;
           set_state (setCompletedTasks (Value
             (List.filter (fun task => negb (strict_eq (Task.id task) taskId))
                (completedTasks st))))
       | None => Ret tt
       end)
    (fun error => console_error "Error updating task:").

(** *** Operations of a session

    The operations of the synchronisation model, with the arguments the
    user supplies through the forms.  [prepare] is what the form controls
    and the Edit icon write before the handler is called ([onChange],
    [onClick]); [handler] is the call the button makes, with the state of
    the current render as its closure. *)

Inductive Op : Type :=
  | Load
  | AddSubject (name : string) (random : nat)
  | AddTask (name subjectId : string)
  | EditTask (taskId newName newSubjectId : string)
  | ToggleCompletion (taskId : string) (completed : bool)
  | Delete (taskId : string).

Definition prepare (op : Op) (s : State) : State :=
  match op with
  | AddSubject name _ => setNewSubjectName (Value name) s
  | AddTask name subjectId =>
      setSelectedSubjectId (Value subjectId) (setNewTaskName (Value name) s)
  | EditTask taskId newName newSubjectId =>
      setSelectedSubjectId (Value newSubjectId)
        (setNewTaskName (Value newName)
           (setTaskEditId (Value (Some taskId))
              (setEditTaskModalOpen (Value true) s)))
  | _ => s
  end.

Definition handler (op : Op) (st : State) : Prog State unit :=
  match op with
  | Load => fetchData st
  | AddSubject _ random => addSubject st random
  | AddTask _ _ => addTask st
  | EditTask _ _ _ => editTask st (newTaskName st) (selectedSubjectId st)
  | ToggleCompletion taskId completed => toggleTaskStatus st taskId completed
  | Delete taskId => deleteTask st taskId
  end.

Definition perform (op : Op) (store : Store) (s : State) : State :=
  let st := prepare op s in exec (handler op st) store st.

(** A session: operations one after the other, each with the answers the
    store gives while it runs. *)
Fixpoint run (session : list (Op * Store)) (s : State) : State :=
  match session with
  | [] => s
  | (op, store) :: rest => run rest (perform op store s)
  end.

(** The store keys its rows by [id]: the rows of a select have pairwise
    different ids, and the row an insert returns has an id no known row
    has. *)
Definition keys_respected (op : Op) (store : Store) (s : State) : bool :=
  match op with
  | Load =>
      match store SelectTasks with
      | Success (Some rows) => bool_decide (NoDup (List.map Task.id rows))
      | _ => true
      end
  | AddTask name subjectId =>
      match store (InsertTask (trim name) subjectId false) with
      | Success data => bool_decide (Task.id data ∉ List.map Task.id (tasks s))
      | _ => true
      end
  | _ => true
  end.

Fixpoint session_keys_respected (session : list (Op * Store)) (s : State) : bool :=
  match session with
  | [] => true
  | (op, store) :: rest =>
      keys_respected op store s && session_keys_respected rest (perform op store s)
  end.

(** *** The partition properties *)

(** The set of task ids of a container. *)
Definition ids (l : list Task.t) : gset string := list_to_set (List.map Task.id l).
#[global] Arguments ids : simpl never.

(** The id sets of the two partitions are disjoint and cover the id set of
    the full mirror. *)
Definition partition_ids (s : State) : Prop :=
  ids (notCompletedTasks s) ∪ ids (completedTasks s) = ids (tasks s)
  ∧ ids (notCompletedTasks s) ## ids (completedTasks s).

(** The partitions are exactly the partition of the full mirror by
    [completed]: each holds the records of the mirror with its flag, every
    one as often as the mirror does and no other record (the order within a
    partition is left free). *)
Definition exact_partition (s : State) : Prop :=
  completedTasks s ≡ₚ List.filter (fun task => Task.completed task) (tasks s)
  ∧ notCompletedTasks s ≡ₚ
      List.filter (fun task => negb (Task.completed task)) (tasks s).

(** The filter of the partition of flag [b]. *)
Definition flag_is (b : bool) : Task.t → bool :=
  fun task => if b then Task.completed task else negb (Task.completed task).

(** How many entries of a container carry the id. *)
Definition count_id (taskId : string) (l : list Task.t) : nat :=
  length (List.filter (fun task => strict_eq (Task.id task) taskId) l).

(** *** What the component renders

    The values and conditions of the JSX the component returns, for the
    state [st] of the render. *)

(** [if (loading) return <Loading.../>] *)
Definition showsLoading (st : State) : bool := loading st.

(** [const totalTasks = tasks.length] *)
Definition totalTasks (st : State) : nat := length (tasks st).

(** The header [{completedTasks.length} of {totalTasks} tasks completed],
    rendered when [totalTasks > 0]: the two numbers. *)
Definition header (st : State) : option (nat * nat) :=
  if Nat.ltb 0 (totalTasks st) then Some (length (completedTasks st), totalTasks st) else None.

(** [disabled={!newSubjectName.trim()}] of the Add Subject button. *)
Definition addSubjectDisabled (st : State) : bool :=
  negb (truthy (trim (newSubjectName st))).

(** [disabled={!newTaskName.trim() || !selectedSubjectId}] of the Add Task
    button. *)
Definition addTaskDisabled (st : State) : bool :=
  (negb (truthy (trim (newTaskName st))) || negb (truthy (selectedSubjectId st)))%bool.

(** [value] of the select of the edit dialog:
    [selectedSubjectId ? selectedSubjectId
       : notCompletedTasks.find(task => task.id === taskEditId)?.subject_id || ""] *)
Definition editSubjectValue (st : State) : string :=
  if truthy (selectedSubjectId st) then selectedSubjectId st
  else or_else_undefined
         (Task.subject_id <$>
            List.find (fun task => strict_eq_nullable (Task.id task) (taskEditId st))
              (notCompletedTasks st))
         "".

(** [value] of the input of the edit dialog:
    [newTaskName ? newTaskName
       : tasks.find(task => task.id === taskEditId)?.name || ""] *)
Definition editNameValue (st : State) : string :=
  if truthy (newTaskName st) then newTaskName st
  else or_else_undefined
         (Task.name <$>
            List.find (fun task => strict_eq_nullable (Task.id task) (taskEditId st))
              (tasks st))
         "".

(** The Show/Hide Completed Tasks button is rendered when
    [completedTasks.length > 0]. *)
Definition showsCompletedButton (st : State) : bool :=
  Nat.ltb 0 (length (completedTasks st)).

(** The cards of the Pending Tasks list: rendered when [tasks.length > 0]
    and [notCompletedTasks.length > 0]. *)
Definition pendingCards (st : State) : list Task.t :=
  if (Nat.ltb 0 (length (tasks st)) && Nat.ltb 0 (length (notCompletedTasks st)))%bool
  then notCompletedTasks st else [].

(** The cards of the Completed Tasks list: rendered when [tasks.length > 0],
    [completedTasksToggle] and [completedTasks.length > 0]. *)
Definition completedCards (st : State) : list Task.t :=
  if (Nat.ltb 0 (length (tasks st))
      && (completedTasksToggle st && Nat.ltb 0 (length (completedTasks st))))%bool
  then completedTasks st else [].

(** *** What the controls do

    The [onClick] and [onChange] callbacks that only call setters. *)

(** The Edit icon of the card of [task]:
    [setEditTaskModalOpen(true); setTaskEditId(task.id)]. *)
Definition clickEdit (task : Task.t) (s : State) : State :=
  setTaskEditId (Value (Some (Task.id task))) (setEditTaskModalOpen (Value true) s).

(** The Cancel button of the edit dialog: [setEditTaskModalOpen(false)]. *)
Definition cancelEdit (s : State) : State := setEditTaskModalOpen (Value false) s.

(** [onChange] of a task-name input and of a subject select. *)
Definition typeTaskName (value : string) (s : State) : State :=
  setNewTaskName (Value value) s.
Definition selectSubject (value : string) (s : State) : State :=
  setSelectedSubjectId (Value value) s.

(** The [+ Task] button: [setAddTaskModalOpen(true)]. *)
Definition openAddTask (s : State) : State := setAddTaskModalOpen (Value true) s.

(** The Show/Hide button:
    [setCompletedTasksToggle(!completedTasksToggle)], with the value of the
    render [st]. *)
Definition clickShowCompleted (st s : State) : State :=
  setCompletedTasksToggle (Value (negb (completedTasksToggle st))) s.

(** *** Sessions that keep the exact partition *)

(** The row an insert returns is not completed, as the row sent. *)
Definition row_not_completed (op : Op) (store : Store) : bool :=
  match op with
  | AddTask name subjectId =>
      match store (InsertTask (trim name) subjectId false) with
      | Success data => negb (Task.completed data)
      | _ => true
      end
  | _ => true
  end.

(** The operation is no edit, and a toggle of a task the mirror holds asks
    for the flag the task does not have (what the checkbox of a card does). *)
Definition flips (op : Op) (s : State) : bool :=
  match op with
  | EditTask _ _ _ => false
  | ToggleCompletion taskId completed =>
      match List.find (fun task => strict_eq (Task.id task) taskId) (tasks s) with
      | Some task => negb (Bool.eqb (Task.completed task) completed)
      | None => true
      end
  | _ => true
  end.

(** The partitions are exact and the ids of the mirror pairwise different. *)
Definition consistent (s : State) : Prop :=
  exact_partition s ∧ NoDup (List.map Task.id (tasks s)).

Fixpoint session_flips (session : list (Op * Store)) (s : State) : bool :=
  match session with
  | [] => true
  | (op, store) :: rest =>
      keys_respected op store s && row_not_completed op store && flips op s
      && session_flips rest (perform op store s)
  end.

End PartitionedManager.

(** ** The component without partitions ([src/src/components/task-manager.tsx]) *)

Module TaskManager.

Record State : Type := mkState {
  subjects : list Subject.t;
  tasks : list Task.t;
  newSubjectName : string;
  newTaskName : string;
  selectedSubjectId : string;
  loading : bool;
  addSubjectModalOpen : bool;
  addTaskModalOpen : bool
}.

Definition initial : State := mkState [] [] "" "" "" true false false.

Definition setSubjects (a : SetStateAction (list Subject.t)) (s : State) : State :=
  mkState (apply_action a (subjects s)) (tasks s) (newSubjectName s) (newTaskName s)
    (selectedSubjectId s) (loading s) (addSubjectModalOpen s) (addTaskModalOpen s).

Definition setTasks (a : SetStateAction (list Task.t)) (s : State) : State :=
  mkState (subjects s) (apply_action a (tasks s)) (newSubjectName s) (newTaskName s)
    (selectedSubjectId s) (loading s) (addSubjectModalOpen s) (addTaskModalOpen s).

Definition setNewSubjectName (a : SetStateAction string) (s : State) : State :=
  mkState (subjects s) (tasks s) (apply_action a (newSubjectName s)) (newTaskName s)
    (selectedSubjectId s) (loading s) (addSubjectModalOpen s) (addTaskModalOpen s).

Definition setNewTaskName (a : SetStateAction string) (s : State) : State :=
  mkState (subjects s) (tasks s) (newSubjectName s) (apply_action a (newTaskName s))
    (selectedSubjectId s) (loading s) (addSubjectModalOpen s) (addTaskModalOpen s).

Definition setSelectedSubjectId (a : SetStateAction string) (s : State) : State :=
  mkState (subjects s) (tasks s) (newSubjectName s) (newTaskName s)
    (apply_action a (selectedSubjectId s)) (loading s) (addSubjectModalOpen s)
    (addTaskModalOpen s).

Definition setLoading (a : SetStateAction bool) (s : State) : State :=
  mkState (subjects s) (tasks s) (newSubjectName s) (newTaskName s)
    (selectedSubjectId s) (apply_action a (loading s)) (addSubjectModalOpen s)
    (addTaskModalOpen s).

Definition setAddSubjectModalOpen (a : SetStateAction bool) (s : State) : State :=
  mkState (subjects s) (tasks s) (newSubjectName s) (newTaskName s)
    (selectedSubjectId s) (loading s) (apply_action a (addSubjectModalOpen s))
    (addTaskModalOpen s).

Definition setAddTaskModalOpen (a : SetStateAction bool) (s : State) : State :=
  mkState (subjects s) (tasks s) (newSubjectName s) (newTaskName s)
    (selectedSubjectId s) (loading s) (addSubjectModalOpen s)
    (apply_action a (addTaskModalOpen s)).

Definition fetchData (st : State) : Prog State unit :=
  finally
    (try_catch
       (r1 ← await SelectSubjects;
        subjectsData ← unwrap r1;
        r2 ← await SelectTasks;
        tasksData ← unwrap r2;
        set_state (setSubjects (Value (or_empty subjectsData)));;
        set_state (setTasks (Value (or_empty tasksData))))
       (fun error => console_error "Error fetching data:"))
    (set_state (setLoading (Value false))).

Definition addSubject (st : State) (random : nat) : Prog State unit :=
  if negb (truthy (trim (newSubjectName st))) then Ret tt else
  try_catch
    (r ← await (InsertSubject (trim (newSubjectName st)) (randomColor random));
     data ← unwrap r;
     set_state (setSubjects (Value (subjects st ++ [data])%list));;
     set_state (setAddSubjectModalOpen (Value false));;
     set_state (setNewSubjectName (Value "")))
    (fun error => console_error "Error adding subject:").

Definition addTask (st : State) : Prog State unit :=
  if (negb (truthy (trim (newTaskName st))) || negb (truthy (selectedSubjectId st)))%bool
  then Ret tt else
  try_catch
    (r ← await (InsertTask (trim (newTaskName st)) (selectedSubjectId st) false);
     data ← unwrap r;
     set_state (setTasks (Value (data :: tasks st)));;
     set_state (setNewTaskName (Value ""));;
     set_state (setAddTaskModalOpen (Value false));;
     set_state (setSelectedSubjectId (Value "")))
    (fun error => console_error "Error adding task:").

Definition toggleTaskStatus (st : State) (taskId : string) (completed : bool)
  : Prog State unit :=
  try_catch
    (r ← await (UpdateCompleted taskId completed);
     _ ← unwrap r;
     set_state (setTasks (Value
       (List.map (fun task =>
          if strict_eq (Task.id task) taskId
          then Task.with_completed task completed else task) (tasks st)))))
    (fun error => console_error "Error updating task:").

(** [const completedTasks = tasks.filter((task) => task.completed).length]
    and [const totalTasks = tasks.length] *)
Definition completedTasks (st : State) : nat :=
  length (List.filter (fun task => Task.completed task) (tasks st)).
Definition totalTasks (st : State) : nat := length (tasks st).

(** The header [{completedTasks} of {totalTasks} tasks completed], rendered
    when [totalTasks > 0]. *)
Definition header (st : State) : option (nat * nat) :=
  if Nat.ltb 0 (totalTasks st) then Some (completedTasks st, totalTasks st) else None.

Definition addSubjectDisabled (st : State) : bool :=
  negb (truthy (trim (newSubjectName st))).

Definition addTaskDisabled (st : State) : bool :=
  (negb (truthy (trim (newTaskName st))) || negb (truthy (selectedSubjectId st)))%bool.

End TaskManager.

(** ** The two components side by side *)

(** The cells the component of [task-manager.tsx] has, read off a state of
    the component with partitions. *)
Definition without_partitions (s : PartitionedManager.State) : TaskManager.State :=
  TaskManager.mkState
    (PartitionedManager.subjects s) (PartitionedManager.tasks s)
    (PartitionedManager.newSubjectName s) (PartitionedManager.newTaskName s)
    (PartitionedManager.selectedSubjectId s) (PartitionedManager.loading s)
    (PartitionedManager.addSubjectModalOpen s) (PartitionedManager.addTaskModalOpen s).

(** The operations both components have. *)
Inductive SharedOp : Type :=
  | SharedLoad
  | SharedAddSubject (random : nat)
  | SharedAddTask
  | SharedToggle (taskId : string) (completed : bool).

Definition partitioned_handler (op : SharedOp) (st : PartitionedManager.State)
  : Prog PartitionedManager.State unit :=
  match op with
  | SharedLoad => PartitionedManager.fetchData st
  | SharedAddSubject random => PartitionedManager.addSubject st random
  | SharedAddTask => PartitionedManager.addTask st
  | SharedToggle taskId completed => PartitionedManager.toggleTaskStatus st taskId completed
  end.

Definition plain_handler (op : SharedOp) (st : TaskManager.State)
  : Prog TaskManager.State unit :=
  match op with
  | SharedLoad => TaskManager.fetchData st
  | SharedAddSubject random => TaskManager.addSubject st random
  | SharedAddTask => TaskManager.addTask st
  | SharedToggle taskId completed => TaskManager.toggleTaskStatus st taskId completed
  end.

(** What happens in a session of either component: the user types into a
    form control ([onChange] calls the setter), or a handler is called with
    the state of the current render as its closure. *)
Inductive SharedEvent : Type :=
  | TypeSubjectName (value : string)
  | TypeTaskName (value : string)
  | SelectSubject (value : string)
  | Call (op : SharedOp).

Definition partitioned_step (event : SharedEvent) (store : Store)
  (s : PartitionedManager.State) : PartitionedManager.State :=
  match event with
  | TypeSubjectName value => PartitionedManager.setNewSubjectName (Value value) s
  | TypeTaskName value => PartitionedManager.setNewTaskName (Value value) s
  | SelectSubject value => PartitionedManager.setSelectedSubjectId (Value value) s
  | Call op => exec (partitioned_handler op s) store s
  end.

Definition plain_step (event : SharedEvent) (store : Store)
  (s : TaskManager.State) : TaskManager.State :=
  match event with
  | TypeSubjectName value => TaskManager.setNewSubjectName (Value value) s
  | TypeTaskName value => TaskManager.setNewTaskName (Value value) s
  | SelectSubject value => TaskManager.setSelectedSubjectId (Value value) s
  | Call op => exec (plain_handler op s) store s
  end.

Fixpoint partitioned_run (session : list (SharedEvent * Store))
  (s : PartitionedManager.State) : PartitionedManager.State :=
  match session with
  | [] => s
  | (event, store) :: rest => partitioned_run rest (partitioned_step event store s)
  end.

Fixpoint plain_run (session : list (SharedEvent * Store))
  (s : TaskManager.State) : TaskManager.State :=
  match session with
  | [] => s
  | (event, store) :: rest => plain_run rest (plain_step event store s)
  end.

(** ** Concrete tasks, stores and sessions used in the examples *)

Module Examples.
Import PartitionedManager.

Definition t1 : Task.t := Task.mk "t1" "s1" "Old" false "T1" None.
Definition t2 : Task.t := Task.mk "t2" "s1" "Read ch.1" false "T2" None.

(** A store in which every request succeeds: a select of tasks gives
    [rows], an insert of a task gives [inserted], an insert of a subject
    gives the row with the name and colour sent. *)
Definition answering (rows : list Task.t) (inserted : Task.t) : Store :=
  fun r =>
    match r with
    | SelectSubjects => Success (Some [])
    | SelectTasks => Success (Some rows)
    | InsertSubject name color => Success (Subject.mk "s1" name color "T0")
    | InsertTask _ _ _ => Success inserted
    | UpdateTask _ _ _ => Success tt
    | UpdateCompleted _ _ => Success tt
    | DeleteTask _ => Success tt
    end.

(** A store in which every request fails. *)
Definition offline : Store := fun r => Failure "offline".

Definition online : Store := answering [t1] t2.

(** The state after a load that brought [t1]. *)
Definition loaded : State := Eval vm_compute in run [(Load, online)] initial.

(** [t1] is renamed, then edited again with an empty name. *)
Definition renamed : State :=
  Eval vm_compute in perform (EditTask "t1" "New" "") online loaded.

Definition renamed_then_moved : State :=
  Eval vm_compute in perform (EditTask "t1" "" "s2") online renamed.

(** [t1] is marked completed, and marked completed once more. *)
Definition completed_once : State :=
  Eval vm_compute in perform (ToggleCompletion "t1" true) online loaded.

Definition completed_twice : State :=
  Eval vm_compute in perform (ToggleCompletion "t1" true) online completed_once.

(** A session that uses every operation. *)
Definition busy_session : list (Op * Store) :=
  [(Load, online); (AddSubject "Math" 7, online); (AddTask "Read ch.1" "s1", online);
   (ToggleCompletion "t1" true, online); (EditTask "t2" "" "s2", online);
   (Delete "t1", online); (ToggleCompletion "t2" false, offline)].

Definition t3 : Task.t := Task.mk "t3" "s1" "Read ch.1" false "T3" None.

(** The state after a load that brought [t1] and [t2]. *)
Definition two_loaded : State :=
  Eval vm_compute in run [(Load, answering [t1; t2] t3)] initial.

(** The add form of [loaded], filled in. *)
Definition filled_in : State :=
  Eval vm_compute in selectSubject "s1" (typeTaskName " Read ch.1 " loaded).

(** A session without edits, in which every toggle flips. *)
Definition flipping_session : list (Op * Store) :=
  [(Load, online); (AddSubject "Math" 7, online); (AddTask "Read ch.1" "s1", online);
   (ToggleCompletion "t1" true, online); (ToggleCompletion "t1" false, online);
   (ToggleCompletion "t2" true, offline); (ToggleCompletion "t9" true, online);
   (Delete "t1", online); (ToggleCompletion "t2" true, online)].
End Examples.

(** * Properties *)

Lemma truthy_false (s : string) : truthy s = false ↔ s = "".
Proof. destruct s; cbn; split; congruence. Qed.

Lemma truthy_true (s : string) : truthy s = true ↔ s ≠ "".
Proof. destruct s; cbn; split; congruence. Qed.

Lemma or_else_empty (b : string) : or_else "" b = b.
Proof. reflexivity. Qed.

Lemma or_else_truthy (a b : string) : a ≠ "" → or_else a b = a.
Proof. intros Ha. unfold or_else. by apply truthy_true in Ha as ->. Qed.

Lemma strict_eq_true (a b : string) : strict_eq a b = true ↔ a = b.
Proof. apply String.eqb_eq. Qed.

Lemma strict_eq_false (a b : string) : strict_eq a b = false ↔ a ≠ b.
Proof. apply String.eqb_neq. Qed.

Example trim_examples :
  trim "  Read ch.1  " = "Read ch.1" ∧ trim "   " = "" ∧ trim "" = ""
  ∧ trim " a  b " = "a  b".
Proof. repeat split; reflexivity. Qed.

Lemma trim_blank_not_truthy (s : string) : trim s = "" ↔ truthy (trim s) = false.
Proof. symmetry. apply truthy_false. Qed.

Lemma randomColor_in_colors (random : nat) : randomColor random ∈ colors.
Proof.
  unfold randomColor. apply list_elem_of_In, nth_In.
  apply Nat.mod_upper_bound. discriminate.
Qed.

(** The single request of a handler failed: what [Forall fails] says about a
    one-request trace. *)
Ltac failed_request H :=
  cbn in H |- *; apply Forall_cons in H as [H _]; unfold fails in H;
  destruct (_ : Response _); [done | discriminate].

(** The example states are states of sessions that start from the initial
    state. *)
Lemma examples_reachable :
  Examples.loaded
  = PartitionedManager.run [(PartitionedManager.Load, Examples.online)]
      PartitionedManager.initial
  ∧ Examples.renamed
    = PartitionedManager.run
        [(PartitionedManager.Load, Examples.online);
         (PartitionedManager.EditTask "t1" "New" "", Examples.online)]
        PartitionedManager.initial
  ∧ Examples.renamed_then_moved
    = PartitionedManager.run
        [(PartitionedManager.Load, Examples.online);
         (PartitionedManager.EditTask "t1" "New" "", Examples.online);
         (PartitionedManager.EditTask "t1" "" "s2", Examples.online)]
        PartitionedManager.initial
  ∧ Examples.completed_twice
    = PartitionedManager.run
        [(PartitionedManager.Load, Examples.online);
         (PartitionedManager.ToggleCompletion "t1" true, Examples.online);
         (PartitionedManager.ToggleCompletion "t1" true, Examples.online)]
        PartitionedManager.initial.
Proof. repeat split; vm_compute; reflexivity. Qed.

(** ** Remote failures *)

(** C5. When the request of [addSubject], [addTask], [editTask],
    [toggleTaskStatus] or [deleteTask] fails, the state after the handler is
    the state before it, in every cell; and each of these handlers awaits its
    request before it calls any setter. *)
Theorem remote_failure_keeps_state
  (st s : PartitionedManager.State) (store : Store) (random : nat)
  (updatedName updatedSubjectId taskId : string) (completed : bool)
  (p : Prog PartitionedManager.State unit) :
  p ∈ [PartitionedManager.addSubject st random;
       PartitionedManager.addTask st;
       PartitionedManager.editTask st updatedName updatedSubjectId;
       PartitionedManager.toggleTaskStatus st taskId completed;
       PartitionedManager.deleteTask st taskId] →
  Forall (fun r => fails store r = true) (requests p store) →
  exec p store s = s ∧ awaits_before_mutating p = true.
Proof.
  intros Hp Hfail.
  repeat (apply elem_of_cons in Hp as [-> | Hp]);
    [ | | | | | by apply elem_of_nil in Hp].
  - unfold PartitionedManager.addSubject in *. destruct (negb _); [done|].
    failed_request Hfail.
  - unfold PartitionedManager.addTask in *. destruct (_ || _)%bool; [done|].
    failed_request Hfail.
  - unfold PartitionedManager.editTask in *. failed_request Hfail.
  - unfold PartitionedManager.toggleTaskStatus in *. failed_request Hfail.
  - unfold PartitionedManager.deleteTask in *. failed_request Hfail.
Qed.

(** A failed request is what the handler logs, once. *)
Lemma remote_failure_is_logged
  (st : PartitionedManager.State) (store : Store) (taskId : string) (completed : bool) :
  fails store (UpdateCompleted taskId completed) = true →
  fails store (DeleteTask taskId) = true →
  console (PartitionedManager.toggleTaskStatus st taskId completed) store
  = ["Error updating task:"]
  ∧ console (PartitionedManager.deleteTask st taskId) store = ["Error deleting task:"].
Proof.
  unfold fails, PartitionedManager.toggleTaskStatus, PartitionedManager.deleteTask.
  intros Hupdate Hdelete. cbn.
  destruct (store (UpdateCompleted _ _)); [|discriminate].
  destruct (store (DeleteTask _)); [|discriminate]. done.
Qed.

Lemma remote_failure_keeps_state_witness :
  exec (PartitionedManager.deleteTask Examples.loaded "t1") Examples.offline
       Examples.loaded = Examples.loaded
  ∧ awaits_before_mutating (PartitionedManager.deleteTask Examples.loaded "t1") = true.
Proof.
  apply (remote_failure_keeps_state Examples.loaded Examples.loaded Examples.offline
           0 "" "" "t1" true).
  - do 4 apply list_elem_of_further. apply list_elem_of_here.
  - vm_compute. repeat constructor.
Defined.

(** ** The guards of the two insert handlers *)

(** C7. [addTask] with an empty [selectedSubjectId], or with a
    [newTaskName] that is empty once trimmed, returns at its guard: in both
    components the state is left as it is (so the task mirror, the partitions
    and the number of tasks are) and no request is sent. *)
Theorem addTask_guard_noop
  (st s : PartitionedManager.State) (st' s' : TaskManager.State) (store : Store)
  (name subjectId : string) :
  PartitionedManager.newTaskName st = name →
  PartitionedManager.selectedSubjectId st = subjectId →
  TaskManager.newTaskName st' = name →
  TaskManager.selectedSubjectId st' = subjectId →
  subjectId = "" ∨ trim name = "" →
  let after := exec (PartitionedManager.addTask st) store s in
  let after' := exec (TaskManager.addTask st') store s' in
  (after = s
   ∧ PartitionedManager.tasks after = PartitionedManager.tasks s
   ∧ PartitionedManager.completedTasks after = PartitionedManager.completedTasks s
   ∧ PartitionedManager.notCompletedTasks after = PartitionedManager.notCompletedTasks s
   ∧ length (PartitionedManager.tasks after) = length (PartitionedManager.tasks s)
   ∧ requests (PartitionedManager.addTask st) store = [])
  ∧ (after' = s'
     ∧ length (TaskManager.tasks after') = length (TaskManager.tasks s')
     ∧ requests (TaskManager.addTask st') store = []).
Proof.
  intros Hn Hs Hn' Hs' Hblank after after'. subst after after'.
  assert (Hguard : (negb (truthy (trim name)) || negb (truthy subjectId))%bool = true).
  { destruct Hblank as [-> | ->]; cbn; [apply orb_true_r | done]. }
  unfold PartitionedManager.addTask, TaskManager.addTask.
  rewrite Hn, Hs, Hn', Hs', Hguard. cbn. done.
Qed.

Lemma addTask_guard_noop_witness :
  exec (PartitionedManager.addTask
          (PartitionedManager.prepare (PartitionedManager.AddTask "  " "s1")
             Examples.loaded))
       Examples.online Examples.loaded = Examples.loaded
  ∧ requests (TaskManager.addTask
                (TaskManager.setNewTaskName (Value "  ")
                   (TaskManager.setSelectedSubjectId (Value "s1") TaskManager.initial)))
             Examples.online = [].
Proof.
  pose proof (addTask_guard_noop
    (PartitionedManager.prepare (PartitionedManager.AddTask "  " "s1") Examples.loaded)
    Examples.loaded
    (TaskManager.setNewTaskName (Value "  ")
       (TaskManager.setSelectedSubjectId (Value "s1") TaskManager.initial))
    TaskManager.initial Examples.online "  " "s1"
    eq_refl eq_refl eq_refl eq_refl (or_intror eq_refl)) as [[H _] [_ [_ H']]].
  split; [exact H | exact H'].
Defined.

(** C8. In both components [addSubject] with a [newSubjectName] that is
    empty once trimmed returns at its guard: the state (so the subjects
    mirror and its length) is left as it is and no request is sent.  With a
    name that is not blank the one request is the insert of the trimmed name
    with a colour of the six-entry palette [colors]; when it succeeds the
    returned record is appended to the subjects mirror, and its colour is of
    the palette when the store returns the colour it was sent. *)
Theorem addSubject_guard_and_append
  (st : PartitionedManager.State) (st' : TaskManager.State) (store : Store)
  (random : nat) (name : string) :
  PartitionedManager.newSubjectName st = name →
  TaskManager.newSubjectName st' = name →
  colors = ["#ef4444"; "#10b981"; "#f59e0b"; "#8b5cf6"; "#06b6d4"; "#f97316"]
  ∧ (trim name = "" →
     (∀ s, exec (PartitionedManager.addSubject st random) store s = s
           ∧ length (PartitionedManager.subjects
                       (exec (PartitionedManager.addSubject st random) store s))
             = length (PartitionedManager.subjects s))
     ∧ requests (PartitionedManager.addSubject st random) store = []
     ∧ (∀ s', exec (TaskManager.addSubject st' random) store s' = s'
              ∧ length (TaskManager.subjects
                          (exec (TaskManager.addSubject st' random) store s'))
                = length (TaskManager.subjects s'))
     ∧ requests (TaskManager.addSubject st' random) store = [])
  ∧ (trim name ≠ "" →
     ∀ data, store (InsertSubject (trim name) (randomColor random)) = Success data →
     randomColor random ∈ colors
     ∧ (Subject.color data = randomColor random → Subject.color data ∈ colors)
     ∧ requests (PartitionedManager.addSubject st random) store
       = [InsertSubject (trim name) (randomColor random)]
     ∧ PartitionedManager.subjects (exec (PartitionedManager.addSubject st random) store st)
       = (PartitionedManager.subjects st ++ [data])%list
     ∧ requests (TaskManager.addSubject st' random) store
       = [InsertSubject (trim name) (randomColor random)]
     ∧ TaskManager.subjects (exec (TaskManager.addSubject st' random) store st')
       = (TaskManager.subjects st' ++ [data])%list).
Proof.
  intros Hn Hn'. split; [reflexivity|].
  unfold PartitionedManager.addSubject, TaskManager.addSubject.
  rewrite Hn, Hn'. split.
  - intros ->. cbn. done.
  - intros Hname%truthy_true data Hdata. rewrite Hname. cbn.
    rewrite Hdata. cbn.
    split; [apply randomColor_in_colors|].
    split; [intros ->; apply randomColor_in_colors|]. done.
Qed.

Lemma addSubject_guard_and_append_witness :
  requests (PartitionedManager.addSubject
              (PartitionedManager.setNewSubjectName (Value "   ") Examples.loaded) 7)
           Examples.online = []
  ∧ PartitionedManager.subjects
      (exec (PartitionedManager.addSubject
               (PartitionedManager.setNewSubjectName (Value " Math ") Examples.loaded) 7)
            Examples.online
            (PartitionedManager.setNewSubjectName (Value " Math ") Examples.loaded))
    = [Subject.mk "s1" "Math" "#10b981" "T0"].
Proof.
  split.
  - pose proof (addSubject_guard_and_append
      (PartitionedManager.setNewSubjectName (Value "   ") Examples.loaded)
      (TaskManager.setNewSubjectName (Value "   ") TaskManager.initial)
      Examples.online 7 "   " eq_refl eq_refl) as [_ [H _]].
    exact (proj1 (proj2 (H eq_refl))).
  - pose proof (addSubject_guard_and_append
      (PartitionedManager.setNewSubjectName (Value " Math ") Examples.loaded)
      (TaskManager.setNewSubjectName (Value " Math ") TaskManager.initial)
      Examples.online 7 " Math " eq_refl eq_refl) as [_ [_ H]].
    assert (Hne : trim " Math " ≠ "") by (vm_compute; discriminate).
    exact (proj1 (proj2 (proj2 (proj2 (H Hne _ eq_refl))))).
Defined.

(** ** Frame of [editTask] *)

(** C9. Whatever the store answers, [editTask] leaves the full mirror
    [tasks] as it is, record for record; [subjects] and the cells of the
    other dialogs are left alone as well.  Only the two partitions and the
    cells of the edit form ([editTaskModalOpen], [taskEditId], [newTaskName],
    [selectedSubjectId]) are written. *)
Theorem editTask_keeps_full_mirror
  (st s : PartitionedManager.State) (store : Store)
  (updatedName updatedSubjectId : string) :
  let after := exec (PartitionedManager.editTask st updatedName updatedSubjectId) store s in
  PartitionedManager.tasks after = PartitionedManager.tasks s
  ∧ PartitionedManager.subjects after = PartitionedManager.subjects s
  ∧ PartitionedManager.newSubjectName after = PartitionedManager.newSubjectName s
  ∧ PartitionedManager.loading after = PartitionedManager.loading s
  ∧ PartitionedManager.addSubjectModalOpen after = PartitionedManager.addSubjectModalOpen s
  ∧ PartitionedManager.addTaskModalOpen after = PartitionedManager.addTaskModalOpen s
  ∧ PartitionedManager.completedTasksToggle after
    = PartitionedManager.completedTasksToggle s.
Proof.
  unfold PartitionedManager.editTask. cbn.
  destruct (store _); cbn; done.
Qed.

(** ** [deleteTask] *)

Lemma filter_filter_same {A} (f : A → bool) (l : list A) :
  List.filter f (List.filter f l) = List.filter f l.
Proof.
  induction l as [|x l IH]; [done|]. cbn.
  destruct (f x) eqn:Hx; cbn; rewrite ?Hx, IH; done.
Qed.

Lemma filter_other_ids (taskId : string) (l : list Task.t) (task : Task.t) :
  task ∈ List.filter (fun task => negb (strict_eq (Task.id task) taskId)) l →
  Task.id task ≠ taskId.
Proof.
  intros [_ H]%list_elem_of_In%filter_In.
  by apply negb_true_iff, strict_eq_false in H.
Qed.

(** C6. After [deleteTask] whose remote delete succeeded, [tasks],
    [completedTasks] and [notCompletedTasks] are what they were without the
    entries of that id, so none of the three holds an entry of that id; a
    second [deleteTask] of the same id then leaves the state as it is,
    whether its remote delete succeeds or fails. *)
Theorem deleteTask_removes_and_is_idempotent
  (st : PartitionedManager.State) (store store2 : Store) (taskId : string) :
  store (DeleteTask taskId) = Success tt →
  let other := fun task => negb (strict_eq (Task.id task) taskId) in
  let after := exec (PartitionedManager.deleteTask st taskId) store st in
  PartitionedManager.tasks after = List.filter other (PartitionedManager.tasks st)
  ∧ PartitionedManager.completedTasks after
    = List.filter other (PartitionedManager.completedTasks st)
  ∧ PartitionedManager.notCompletedTasks after
    = List.filter other (PartitionedManager.notCompletedTasks st)
  ∧ (∀ task,
       task ∈ PartitionedManager.tasks after
       ∨ task ∈ PartitionedManager.completedTasks after
       ∨ task ∈ PartitionedManager.notCompletedTasks after →
       Task.id task ≠ taskId)
  ∧ exec (PartitionedManager.deleteTask after taskId) store2 after = after.
Proof.
  intros Hok other after.
  assert (Hafter : after = PartitionedManager.mkState
            (PartitionedManager.subjects st)
            (List.filter other (PartitionedManager.tasks st))
            (List.filter other (PartitionedManager.completedTasks st))
            (List.filter other (PartitionedManager.notCompletedTasks st))
            (PartitionedManager.newSubjectName st) (PartitionedManager.newTaskName st)
            (PartitionedManager.selectedSubjectId st) (PartitionedManager.loading st)
            (PartitionedManager.addSubjectModalOpen st)
            (PartitionedManager.addTaskModalOpen st)
            (PartitionedManager.completedTasksToggle st)
            (PartitionedManager.editTaskModalOpen st) (PartitionedManager.taskEditId st)).
  { subst after. unfold PartitionedManager.deleteTask. cbn. rewrite Hok. reflexivity. }
  clearbody after. subst after. cbn.
  do 3 (split; [reflexivity|]). split.
  - intros task [H | [H | H]]; by apply filter_other_ids in H.
  - unfold PartitionedManager.deleteTask. cbn. destruct (store2 _); cbn; [done|].
    unfold PartitionedManager.setCompletedTasks, PartitionedManager.setNotCompletedTasks,
      PartitionedManager.setTasks. cbn. fold other.
    by rewrite !filter_filter_same.
Qed.

Lemma deleteTask_removes_and_is_idempotent_witness :
  PartitionedManager.tasks
    (exec (PartitionedManager.deleteTask Examples.loaded "t1") Examples.online
          Examples.loaded) = []
  ∧ exec (PartitionedManager.deleteTask
            (exec (PartitionedManager.deleteTask Examples.loaded "t1") Examples.online
                  Examples.loaded) "t1")
         Examples.offline
         (exec (PartitionedManager.deleteTask Examples.loaded "t1") Examples.online
               Examples.loaded)
    = exec (PartitionedManager.deleteTask Examples.loaded "t1") Examples.online
           Examples.loaded.
Proof.
  pose proof (deleteTask_removes_and_is_idempotent Examples.loaded Examples.online
                Examples.offline "t1" eq_refl) as [H [_ [_ [_ H']]]].
  split; [exact H | exact H'].
Defined.

(** ** [toggleTaskStatus] *)

Section toggle.
Import PartitionedManager.

Variable taskId : string.

(** The predicate of [find] and the body of [map] in [toggleTaskStatus]. *)
Let has_id := fun task : Task.t => strict_eq (Task.id task) taskId.
Let other := fun task : Task.t => negb (strict_eq (Task.id task) taskId).
Let mark (completed : bool) := fun task : Task.t =>
  if strict_eq (Task.id task) taskId then Task.with_completed task completed else task.

Lemma mark_id (completed : bool) (task : Task.t) :
  Task.id (mark completed task) = Task.id task.
Proof. unfold mark. by destruct (strict_eq _ _). Qed.

Lemma mark_mark (c c' : bool) (l : list Task.t) :
  List.map (mark c') (List.map (mark c) l) = List.map (mark c') l.
Proof.
  rewrite List.map_map. apply List.map_ext. intros task. unfold mark.
  destruct (strict_eq (Task.id task) taskId) eqn:H; cbn; rewrite H; done.
Qed.

Lemma find_mark (c : bool) (l : list Task.t) :
  List.find has_id (List.map (mark c) l) = mark c <$> List.find has_id l.
Proof.
  induction l as [|task l IH]; [done|]. cbn.
  unfold has_id at 1 3. rewrite mark_id.
  by destruct (strict_eq (Task.id task) taskId).
Qed.

Lemma find_has_id (l : list Task.t) (task : Task.t) :
  List.find has_id l = Some task → Task.id task = taskId ∧ task ∈ l.
Proof.
  intros [Hin Hid]%find_some. split.
  - by apply strict_eq_true.
  - by apply list_elem_of_In.
Qed.

Lemma find_present (l : list Task.t) :
  taskId ∈ List.map Task.id l → ∃ task, List.find has_id l = Some task.
Proof.
  intros Hin. destruct (List.find has_id l) as [task|] eqn:Hfind; [by eexists|].
  apply list_elem_of_In, in_map_iff in Hin as (task & Hid & Hin).
  apply (find_none _ _ Hfind) in Hin. unfold has_id in Hin.
  apply strict_eq_false in Hin. done.
Qed.

Lemma count_id_app (l l' : list Task.t) :
  count_id taskId (l ++ l') = count_id taskId l + count_id taskId l'.
Proof. unfold count_id. by rewrite List.filter_app, length_app. Qed.

Lemma count_id_mark (c : bool) (l : list Task.t) :
  count_id taskId (List.map (mark c) l) = count_id taskId l.
Proof.
  unfold count_id. induction l as [|task l IH]; [done|]. cbn.
  rewrite mark_id. destruct (strict_eq (Task.id task) taskId); cbn; by rewrite IH.
Qed.

Lemma mark_changes_flag_only (c : bool) (l : list Task.t) :
  Forall2 (fun before now =>
             Task.id now = Task.id before
             ∧ Task.subject_id now = Task.subject_id before
             ∧ Task.name now = Task.name before
             ∧ Task.created_at now = Task.created_at before
             ∧ Task.subjects now = Task.subjects before
             ∧ (Task.id before ≠ taskId → now = before)
             ∧ (Task.id before = taskId → Task.completed now = c))
          l (List.map (mark c) l).
Proof.
  induction l as [|task l IH]; constructor; [|done].
  unfold mark. destruct (strict_eq (Task.id task) taskId) eqn:H; cbn.
  - apply strict_eq_true in H. done.
  - apply strict_eq_false in H. done.
Qed.

(** C4. For an id the full mirror holds, [toggleTaskStatus id true]
    followed by [toggleTaskStatus id false], both with a successful update,
    leaves the task in the incomplete partition with [completed = false]
    (it is the last entry, the only one of that id, and the completed
    partition holds none of that id); the full mirror keeps its length and
    order, every record of another id is as before and the records of that
    id differ at most in [completed], which is [false]. *)
Theorem toggle_true_then_false
  (st : State) (store1 store2 : Store) :
  taskId ∈ List.map Task.id (tasks st) →
  store1 (UpdateCompleted taskId true) = Success tt →
  store2 (UpdateCompleted taskId false) = Success tt →
  let mid := exec (toggleTaskStatus st taskId true) store1 st in
  let after := exec (toggleTaskStatus mid taskId false) store2 mid in
  (∃ task,
     List.find has_id (tasks st) = Some task
     ∧ notCompletedTasks after
       = (List.filter other (notCompletedTasks st) ++ [Task.with_completed task false])%list
     ∧ Task.with_completed task false ∈ notCompletedTasks after
     ∧ Task.id (Task.with_completed task false) = taskId
     ∧ Task.completed (Task.with_completed task false) = false)
  ∧ (∀ task, task ∈ notCompletedTasks after → Task.id task = taskId →
             Task.completed task = false)
  ∧ (∀ task, task ∈ completedTasks after → Task.id task ≠ taskId)
  ∧ Forall2 (fun before now =>
               Task.id now = Task.id before
               ∧ Task.subject_id now = Task.subject_id before
               ∧ Task.name now = Task.name before
               ∧ Task.created_at now = Task.created_at before
               ∧ Task.subjects now = Task.subjects before
               ∧ (Task.id before ≠ taskId → now = before)
               ∧ (Task.id before = taskId → Task.completed now = false))
            (tasks st) (tasks after)
  ∧ subjects after = subjects st.
Proof.
  intros [task Hfind]%find_present Hok1 Hok2 mid after.
  destruct (find_has_id _ _ Hfind) as [Hid _].
  assert (Hmid : mid = setNotCompletedTasks (Value (List.filter other (notCompletedTasks st)))
                   (setCompletedTasks
                      (Value (completedTasks st ++ [Task.with_completed task true])%list)
                      (setTasks (Updater (List.map (mark true))) st))).
  { subst mid. unfold toggleTaskStatus. cbn. rewrite Hok1. cbn.
    fold has_id. rewrite Hfind. reflexivity. }
  assert (Hafter : after
            = setCompletedTasks (Value (List.filter other (completedTasks mid)))
                (setNotCompletedTasks
                   (Value (notCompletedTasks mid ++ [Task.with_completed task false])%list)
                   (setTasks (Updater (List.map (mark false))) mid))).
  { subst after. clearbody mid. unfold toggleTaskStatus. cbn. rewrite Hok2. cbn.
    fold has_id. rewrite Hmid at 1. cbn. rewrite find_mark, Hfind. cbn.
    unfold mark at 1. apply strict_eq_true in Hid. rewrite Hid. reflexivity. }
  rewrite Hafter, Hmid. cbn. split; [|split; [|split; [|split]]].
  - exists task. split; [done|]. split; [done|]. split; [|done].
    apply elem_of_app. right. apply list_elem_of_here.
  - intros x [H | H]%elem_of_app Hx.
    + by apply filter_other_ids in H.
    + by apply list_elem_of_singleton in H as ->.
  - intros x H. by apply filter_other_ids in H.
  - rewrite mark_mark. apply mark_changes_flag_only.
  - done.
Qed.

(** C10. [toggleTaskStatus id c] for a task of the full mirror whose
    flag is [c] already, with a successful update, appends a copy of the
    mirror's record to the partition of [c], which is not filtered: the
    partition holds one more entry of that id, and holds a record twice if
    it held that record, while the full mirror holds as many entries of
    that id as before. *)
Theorem toggle_same_flag_duplicates
  (st : State) (store : Store) (completed : bool) (task : Task.t) :
  List.find has_id (tasks st) = Some task →
  Task.completed task = completed →
  store (UpdateCompleted taskId completed) = Success tt →
  let target := fun s => if completed then completedTasks s else notCompletedTasks s in
  let after := exec (toggleTaskStatus st taskId completed) store st in
  target after = (target st ++ [task])%list
  ∧ count_id taskId (target after) = S (count_id taskId (target st))
  ∧ (task ∈ target st → ¬ NoDup (target after))
  ∧ count_id taskId (tasks after) = count_id taskId (tasks st)
  ∧ length (tasks after) = length (tasks st).
Proof.
  intros Hfind Hflag Hok target after.
  destruct (find_has_id _ _ Hfind) as [Hid _].
  assert (Hcopy : Task.with_completed task completed = task).
  { rewrite <- Hflag. by destruct task. }
  assert (Htarget : target after = (target st ++ [task])%list).
  { subst after target. unfold toggleTaskStatus. cbn. rewrite Hok. cbn.
    fold has_id. destruct completed; rewrite Hfind; cbn; by rewrite Hcopy. }
  assert (Htasks : tasks after = List.map (mark completed) (tasks st)).
  { subst after. unfold toggleTaskStatus. cbn. rewrite Hok. cbn.
    fold has_id. destruct completed; rewrite Hfind; reflexivity. }
  split; [done|]. rewrite Htarget, Htasks. split; [|split; [|split]].
  - rewrite count_id_app. unfold count_id at 2. cbn.
    apply strict_eq_true in Hid. rewrite Hid. cbn. lia.
  - intros Hin (_ & Hdisj & _)%NoDup_app. apply (Hdisj task Hin), list_elem_of_here.
  - apply count_id_mark.
  - apply length_map.
Qed.

End toggle.

Lemma toggle_true_then_false_witness :
  ∃ task, task ∈ PartitionedManager.notCompletedTasks
            (PartitionedManager.run
               [(PartitionedManager.ToggleCompletion "t1" true, Examples.online);
                (PartitionedManager.ToggleCompletion "t1" false, Examples.online)]
               Examples.loaded)
          ∧ Task.id task = "t1" ∧ Task.completed task = false.
Proof.
  destruct (toggle_true_then_false "t1" Examples.loaded Examples.online Examples.online)
    as [(task & _ & _ & Hin & Hid & Hflag) _].
  - vm_compute. apply list_elem_of_here.
  - reflexivity.
  - reflexivity.
  - exists (Task.with_completed task false). split; [exact Hin|]. split; [exact Hid | exact Hflag].
Defined.

Lemma toggle_same_flag_duplicates_witness :
  PartitionedManager.completedTasks Examples.completed_twice
  = [Task.with_completed Examples.t1 true; Task.with_completed Examples.t1 true]
  ∧ PartitionedManager.count_id "t1" (PartitionedManager.tasks Examples.completed_twice) = 1.
Proof.
  pose proof (toggle_same_flag_duplicates "t1"
    Examples.completed_once
    Examples.online true (Task.with_completed Examples.t1 true)
    eq_refl eq_refl eq_refl) as [H [_ [_ [H' _]]]].
  split; [exact H | exact H'].
Defined.

(** ** The id sets of the partitions *)

Section ids.
Import PartitionedManager.

Lemma elem_of_ids (i : string) (l : list Task.t) :
  i ∈ ids l ↔ ∃ task, task ∈ l ∧ Task.id task = i.
Proof.
  unfold ids. rewrite elem_of_list_to_set, list_elem_of_In, in_map_iff.
  split; intros (task & H1 & H2); exists task.
  - by rewrite list_elem_of_In.
  - by rewrite <- list_elem_of_In.
Qed.

Lemma ids_nil : ids [] = ∅.
Proof. reflexivity. Qed.

Lemma ids_cons (task : Task.t) (l : list Task.t) :
  ids (task :: l) = {[Task.id task]} ∪ ids l.
Proof. reflexivity. Qed.

Lemma ids_app (l l' : list Task.t) : ids (l ++ l') = ids l ∪ ids l'.
Proof. unfold ids. rewrite List.map_app. apply list_to_set_app_L. Qed.

Lemma ids_filter_other (taskId : string) (l : list Task.t) :
  ids (List.filter (fun task => negb (strict_eq (Task.id task) taskId)) l)
  = ids l ∖ {[taskId]}.
Proof.
  induction l as [|task l IH]; [set_solver|]. cbn.
  destruct (strict_eq (Task.id task) taskId) eqn:H; cbn; rewrite ?ids_cons, IH.
  - apply strict_eq_true in H. set_solver.
  - apply strict_eq_false in H. set_solver.
Qed.

Lemma ids_map (f : Task.t → Task.t) (l : list Task.t) :
  (∀ task, Task.id (f task) = Task.id task) → ids (List.map f l) = ids l.
Proof.
  intros Hf. unfold ids. rewrite List.map_map. f_equal.
  apply List.map_ext. done.
Qed.

Lemma ids_filter_subseteq (f : Task.t → bool) (l : list Task.t) :
  ids (List.filter f l) ⊆ ids l.
Proof.
  intros i (task & [Hin _]%list_elem_of_In%filter_In & Hid)%elem_of_ids.
  apply elem_of_ids. exists task. by rewrite list_elem_of_In.
Qed.

(** Rows with pairwise different ids split by [completed] into parts with
    disjoint id sets that cover the ids of the rows. *)
Lemma ids_split_by_completed (rows : list Task.t) :
  NoDup (List.map Task.id rows) →
  ids (List.filter (fun task => negb (Task.completed task)) rows)
  ∪ ids (List.filter (fun task => Task.completed task) rows) = ids rows
  ∧ ids (List.filter (fun task => negb (Task.completed task)) rows)
    ## ids (List.filter (fun task => Task.completed task) rows).
Proof.
  induction rows as [|task rows IH]; [set_solver|].
  cbn [List.map]. intros [Hnew Hrest]%NoDup_cons. destruct (IH Hrest) as [Hcover Hdisj].
  assert (Hfresh : Task.id task ∉ ids rows).
  { unfold ids. by rewrite elem_of_list_to_set. }
  pose proof (ids_filter_subseteq (fun task => negb (Task.completed task)) rows).
  pose proof (ids_filter_subseteq (fun task => Task.completed task) rows).
  cbn. destruct (Task.completed task); cbn; rewrite !ids_cons; set_solver.
Qed.

Lemma partition_ids_initial : partition_ids initial.
Proof. unfold partition_ids. cbn. set_solver. Qed.

Lemma ids_moved_right (A B T : gset string) (i : string) :
  A ∪ B = T → A ## B → i ∈ T →
  A ∖ {[i]} ∪ (B ∪ ({[i]} ∪ ∅)) = T ∧ A ∖ {[i]} ## B ∪ ({[i]} ∪ ∅).
Proof.
  intros <- Hdisj Hi. split; [|set_solver].
  apply set_eq. intros x. destruct (decide (x = i)); set_solver.
Qed.

Lemma ids_moved_left (A B T : gset string) (i : string) :
  A ∪ B = T → A ## B → i ∈ T →
  A ∪ ({[i]} ∪ ∅) ∪ B ∖ {[i]} = T ∧ A ∪ ({[i]} ∪ ∅) ## B ∖ {[i]}.
Proof.
  intros <- Hdisj Hi. split; [|set_solver].
  apply set_eq. intros x. destruct (decide (x = i)); set_solver.
Qed.

Lemma ids_removed (A B T : gset string) (i : string) :
  A ∪ B = T → A ## B →
  A ∖ {[i]} ∪ B ∖ {[i]} = T ∖ {[i]} ∧ A ∖ {[i]} ## B ∖ {[i]}.
Proof. intros <- Hdisj. set_solver. Qed.

(** Every operation keeps the partition of the ids, as long as the store
    keys its rows by id. *)
Lemma perform_partition_ids (op : Op) (store : Store) (s : State) :
  keys_respected op store s = true →
  partition_ids s → partition_ids (perform op store s).
Proof.
  unfold partition_ids, perform. intros Hkeys [Hcover Hdisj].
  destruct op as [|name random|name subjectId|taskId newName newSubjectId
                 |taskId completed|taskId]; cbn [prepare handler].
  - (* load *)
    unfold fetchData. cbn in Hkeys |- *.
    destruct (store SelectSubjects) as [?|subjectsData]; cbn; [done|].
    destruct (store SelectTasks) as [?|[rows|]]; cbn; [done| |set_solver].
    apply bool_decide_eq_true in Hkeys. by apply ids_split_by_completed.
  - (* addSubject *)
    unfold addSubject. destruct (negb _); cbn; [done|].
    destruct (store _); cbn; done.
  - (* addTask *)
    unfold addTask. cbn [newTaskName selectedSubjectId setSelectedSubjectId
                         setNewTaskName apply_action].
    destruct (_ || _)%bool; cbn; [done|].
    cbn in Hkeys. destruct (store _) as [?|data]; cbn; [done|].
    apply bool_decide_eq_true in Hkeys.
    assert (Hfresh : Task.id data ∉ ids (tasks s)).
    { unfold ids. by rewrite elem_of_list_to_set. }
    rewrite !ids_cons. clear -Hcover Hdisj Hfresh. set_solver.
  - (* editTask *)
    unfold editTask. cbn. destruct (store _); cbn; [done|].
    rewrite !ids_map; [done| |];
      intros task; by destruct (strict_eq (Task.id task) taskId).
  - (* toggleTaskStatus *)
    unfold toggleTaskStatus. cbn. destruct (store _); cbn; [done|].
    assert (Hmap : ∀ l, ids (List.map (fun task =>
               if strict_eq (Task.id task) taskId
               then Task.with_completed task completed else task) l) = ids l).
    { intros l. apply ids_map. intros task.
      by destruct (strict_eq (Task.id task) taskId). }
    destruct completed.
    + destruct (List.find _ (tasks s)) as [task|] eqn:Hfind; cbn.
      * destruct (find_has_id _ _ _ Hfind) as [Hid Hin].
        assert (Hknown : taskId ∈ ids (tasks s)) by (apply elem_of_ids; by exists task).
        rewrite Hmap, ids_app, ids_filter_other, ids_cons, ids_nil. cbn. rewrite Hid.
        by apply ids_moved_right.
      * rewrite Hmap. done.
    + destruct (List.find _ (tasks s)) as [task|] eqn:Hfind; cbn.
      * destruct (find_has_id _ _ _ Hfind) as [Hid Hin].
        assert (Hknown : taskId ∈ ids (tasks s)) by (apply elem_of_ids; by exists task).
        rewrite Hmap, ids_app, ids_filter_other, ids_cons, ids_nil. cbn. rewrite Hid.
        by apply ids_moved_left.
      * rewrite Hmap. done.
  - (* deleteTask *)
    unfold deleteTask. cbn. destruct (store _); cbn; [done|].
    rewrite !ids_filter_other. by apply ids_removed.
Qed.

Lemma run_partition_ids (session : list (Op * Store)) (s : State) :
  session_keys_respected session s = true →
  partition_ids s → partition_ids (run session s).
Proof.
  revert s. induction session as [|[op store] rest IH]; intros s Hkeys Hs; [done|].
  cbn in Hkeys |- *. apply andb_true_iff in Hkeys as [Hop Hrest].
  apply IH; [done|]. by apply perform_partition_ids.
Qed.

(** C2. After every session of operations that starts from the initial
    (empty) state, against a store that keys its task rows by id, the ids
    of [notCompletedTasks] together with the ids of [completedTasks] are
    the ids of [tasks], and no id is in both partitions. *)
Theorem partition_ids_invariant (session : list (Op * Store)) :
  session_keys_respected session initial = true →
  ids (notCompletedTasks (run session initial))
  ∪ ids (completedTasks (run session initial))
  = ids (tasks (run session initial))
  ∧ ids (notCompletedTasks (run session initial))
    ## ids (completedTasks (run session initial)).
Proof.
  intros Hkeys. apply (run_partition_ids session initial Hkeys partition_ids_initial).
Qed.

End ids.

Lemma partition_ids_invariant_witness :
  PartitionedManager.ids
    (PartitionedManager.notCompletedTasks
       (PartitionedManager.run Examples.busy_session PartitionedManager.initial))
  ∪ PartitionedManager.ids
      (PartitionedManager.completedTasks
         (PartitionedManager.run Examples.busy_session PartitionedManager.initial))
  = PartitionedManager.ids
      (PartitionedManager.tasks
         (PartitionedManager.run Examples.busy_session PartitionedManager.initial))
  ∧ PartitionedManager.ids
      (PartitionedManager.notCompletedTasks
         (PartitionedManager.run Examples.busy_session PartitionedManager.initial))
    ## PartitionedManager.ids
         (PartitionedManager.completedTasks
            (PartitionedManager.run Examples.busy_session PartitionedManager.initial)).
Proof.
  apply (partition_ids_invariant Examples.busy_session). vm_compute. reflexivity.
Defined.

(** ** [editTask] *)

Lemma or_else_empty_r (a : string) : or_else a "" = a.
Proof. by destruct a. Qed.

Section edit.
Import PartitionedManager.

Variable taskId : string.

Let has_id := fun task : Task.t => strict_eq (Task.id task) taskId.
Let revise (name subjectId : string) := fun task : Task.t =>
  if strict_eq (Task.id task) taskId
  then Task.with_name_subject task name subjectId else task.

(** Where [editTask] reads the fallback of an empty argument.  For a task
    the full mirror [tasks] holds, [editTask] takes an empty [updatedName] to
    be the name the full mirror records for the task, and an empty
    [updatedSubjectId] to be the [subject_id] the full mirror records: these
    are sent to the store and, when the update succeeds, written to the
    entries of that id in both partitions, whose other fields are kept. *)
Theorem editTask_fallback_from_full_mirror
  (st : State) (store : Store) (updatedName updatedSubjectId : string) (task : Task.t) :
  taskEditId st = Some taskId →
  List.find has_id (tasks st) = Some task →
  let name := or_else updatedName (Task.name task) in
  let subjectId := or_else updatedSubjectId (Task.subject_id task) in
  store (UpdateTask (Some taskId) name subjectId) = Success tt →
  let after := exec (editTask st updatedName updatedSubjectId) store st in
  (updatedName = "" → name = Task.name task)
  ∧ (updatedSubjectId = "" → subjectId = Task.subject_id task)
  ∧ (updatedName ≠ "" → name = updatedName)
  ∧ (updatedSubjectId ≠ "" → subjectId = updatedSubjectId)
  ∧ requests (editTask st updatedName updatedSubjectId) store
    = [UpdateTask (Some taskId) name subjectId]
  ∧ notCompletedTasks after = List.map (revise name subjectId) (notCompletedTasks st)
  ∧ completedTasks after = List.map (revise name subjectId) (completedTasks st)
  ∧ (∀ entry, Task.id entry = taskId →
       revise name subjectId entry
       = Task.mk taskId subjectId name (Task.completed entry) (Task.created_at entry)
           (Task.subjects entry))
  ∧ (∀ entry, Task.id entry ≠ taskId → revise name subjectId entry = entry).
Proof.
  intros Hedit Hfind name subjectId Hok after.
  split; [by intros ->|]. split; [by intros ->|].
  split; [apply or_else_truthy|]. split; [apply or_else_truthy|].
  assert (Hsent : requests (editTask st updatedName updatedSubjectId) store
                  = [UpdateTask (Some taskId) name subjectId]
                  ∧ notCompletedTasks after
                    = List.map (revise name subjectId) (notCompletedTasks st)
                  ∧ completedTasks after
                    = List.map (revise name subjectId) (completedTasks st)).
  { subst after. unfold editTask. rewrite Hedit. cbn. fold has_id.
    rewrite Hfind. cbn. rewrite !or_else_empty_r. fold name subjectId.
    rewrite Hok. cbn. done. }
  destruct Hsent as (-> & -> & ->). do 3 (split; [done|]).
  split; intros entry Hid; unfold revise.
  - apply strict_eq_true in Hid as Heq. rewrite Heq. unfold Task.with_name_subject.
    by rewrite Hid.
  - apply strict_eq_false in Hid. by rewrite Hid.
Qed.

End edit.

(** The scenario [editTask("t1", "", "s2")] right after a load, where the
    full mirror and the incomplete partition both name [t1] "Old". *)
Lemma editTask_fallback_from_full_mirror_witness :
  PartitionedManager.notCompletedTasks
    (PartitionedManager.perform (PartitionedManager.EditTask "t1" "" "s2")
       Examples.online Examples.loaded)
  = [Task.mk "t1" "s2" "Old" false "T1" None].
Proof.
  pose proof (editTask_fallback_from_full_mirror "t1"
    (PartitionedManager.prepare (PartitionedManager.EditTask "t1" "" "s2") Examples.loaded)
    Examples.online "" "s2" Examples.t1 eq_refl eq_refl eq_refl)
    as (_ & _ & _ & _ & _ & H & _).
  exact H.
Defined.

(** While the full mirror and the partitions are in step, an empty argument
    of [editTask] keeps what the entry has: for any store, an entry of the
    edited id whose name is the one the full mirror records keeps it when
    [updatedName] is empty, and likewise its [subject_id] when
    [updatedSubjectId] is empty. *)
Lemma editTask_keeps_entries_in_step
  (taskId : string) (st : PartitionedManager.State) (store : Store)
  (updatedName updatedSubjectId : string) (task : Task.t) :
  PartitionedManager.taskEditId st = Some taskId →
  List.find (fun task => strict_eq (Task.id task) taskId) (PartitionedManager.tasks st)
  = Some task →
  let after := exec (PartitionedManager.editTask st updatedName updatedSubjectId) store st in
  let kept := fun before now : Task.t =>
    Task.id before = taskId →
    (updatedName = "" → Task.name before = Task.name task →
     Task.name now = Task.name before)
    ∧ (updatedSubjectId = "" → Task.subject_id before = Task.subject_id task →
       Task.subject_id now = Task.subject_id before) in
  Forall2 kept (PartitionedManager.notCompletedTasks st)
    (PartitionedManager.notCompletedTasks after)
  ∧ Forall2 kept (PartitionedManager.completedTasks st)
      (PartitionedManager.completedTasks after).
Proof.
  intros Hedit Hfind after kept.
  assert (Hrefl : ∀ l, Forall2 kept l l).
  { intros l. induction l; constructor; [by unfold kept | done]. }
  assert (Hmap : ∀ l,
            Forall2 kept l
              (List.map (fun entry =>
                 if strict_eq (Task.id entry) taskId
                 then Task.with_name_subject entry
                        (or_else updatedName (Task.name task))
                        (or_else updatedSubjectId (Task.subject_id task))
                 else entry) l)).
  { intros l. induction l as [|entry l IH]; constructor; [|done].
    unfold kept. intros Hid. apply strict_eq_true in Hid. rewrite Hid. cbn.
    split; intros -> Hsame; by rewrite or_else_empty. }
  subst after. unfold PartitionedManager.editTask. rewrite Hedit. cbn.
  rewrite Hfind. cbn. rewrite !or_else_empty_r.
  destruct (store _); cbn; [done|]. split; apply Hmap.
Qed.

(** C3 on the code.  [t1] is loaded with the name "Old" and renamed to
    "New" by a successful [editTask]: the incomplete partition, which holds
    the task, names it "New", while the full mirror, which that [editTask]
    did not write, still names it "Old".  [editTask("t1", "", "s2")] then
    reads the fallback from the full mirror: it sends the name "Old" to the
    store and writes it to the entry, so the current name "New" is not
    retained. *)
Lemma editTask_empty_name_reverts_rename :
  (∃ current,
     List.find (fun task => strict_eq (Task.id task) "t1")
       (PartitionedManager.notCompletedTasks Examples.renamed) = Some current
     ∧ Task.name current = "New")
  ∧ requests
      (PartitionedManager.handler (PartitionedManager.EditTask "t1" "" "s2")
         (PartitionedManager.prepare (PartitionedManager.EditTask "t1" "" "s2")
            Examples.renamed))
      Examples.online
    = [UpdateTask (Some "t1") "Old" "s2"]
  ∧ PartitionedManager.notCompletedTasks Examples.renamed_then_moved
    = [Task.mk "t1" "s2" "Old" false "T1" None]
  ∧ PartitionedManager.completedTasks Examples.renamed_then_moved = []
  ∧ ¬ (∀ current, current ∈ PartitionedManager.notCompletedTasks Examples.renamed →
         ∃ edited, edited ∈ PartitionedManager.notCompletedTasks Examples.renamed_then_moved
                   ∧ Task.id edited = Task.id current
                   ∧ Task.name edited = Task.name current).
Proof.
  split; [eexists; split; vm_compute; reflexivity|].
  do 3 (split; [vm_compute; reflexivity|]).
  intros H. destruct (H (Task.mk "t1" "s1" "New" false "T1" None)) as (edited & Hin & _ & Hname).
  - apply list_elem_of_here.
  - apply list_elem_of_singleton in Hin as ->. discriminate Hname.
Qed.

(** ** The exact partition *)

Section exact.
Import PartitionedManager.

Lemma List_filter_Permutation {A} (f : A → bool) (l l' : list A) :
  l ≡ₚ l' → List.filter f l ≡ₚ List.filter f l'.
Proof.
  induction 1 as [|x l l' _ IH|x y l|l l' l'' _ IH _ IH']; cbn.
  - done.
  - destruct (f x); by rewrite IH.
  - destruct (f x), (f y); try done. apply perm_swap.
  - by etrans.
Qed.

Lemma List_filter_comm {A} (f g : A → bool) (l : list A) :
  List.filter f (List.filter g l) = List.filter g (List.filter f l).
Proof.
  induction l as [|x l IH]; [done|]. cbn.
  destruct (f x) eqn:Hf, (g x) eqn:Hg; cbn; rewrite ?Hf, ?Hg, IH; done.
Qed.

Lemma exact_partition_flags (s : State) :
  exact_partition s ↔
  ∀ b : bool, (if b then completedTasks s else notCompletedTasks s)
       ≡ₚ List.filter (flag_is b) (tasks s).
Proof.
  unfold exact_partition. split.
  - intros [Hc Hn] b. by destruct b.
  - intros H. split; [apply (H true) | apply (H false)].
Qed.

Lemma exact_partition_initial : exact_partition initial.
Proof. split; reflexivity. Qed.

(** [fetchData] establishes the exact partition when it succeeds and
    leaves the three containers alone when it fails. *)
Lemma fetchData_exact_partition (st s : State) (store : Store) :
  exact_partition s → exact_partition (exec (fetchData st) store s).
Proof.
  intros Hs. unfold fetchData. cbn.
  destruct (store SelectSubjects); cbn; [done|].
  destruct (store SelectTasks); cbn; [done|]. split; reflexivity.
Qed.

Lemma addSubject_exact_partition (st s : State) (store : Store) (random : nat) :
  exact_partition s → exact_partition (exec (addSubject st random) store s).
Proof.
  intros Hs. unfold addSubject. destruct (negb _); cbn; [done|].
  destruct (store _); cbn; done.
Qed.

(** [addTask] keeps the exact partition when the returned row is not
    completed, as the row it inserted. *)
Lemma addTask_exact_partition (st : State) (store : Store) :
  (∀ data,
     store (InsertTask (trim (newTaskName st)) (selectedSubjectId st) false)
     = Success data → Task.completed data = false) →
  exact_partition st → exact_partition (exec (addTask st) store st).
Proof.
  intros Hrow [Hc Hn]. unfold addTask. destruct (_ || _)%bool; cbn; [done|].
  destruct (store _) as [?|data] eqn:Hdata; cbn; [done|].
  split; cbn; rewrite (Hrow data eq_refl); cbn; [done | by constructor].
Qed.

Lemma deleteTask_exact_partition (st : State) (store : Store) (taskId : string) :
  exact_partition st → exact_partition (exec (deleteTask st taskId) store st).
Proof.
  intros [Hc Hn]. unfold deleteTask. cbn. destruct (store _); cbn; [done|].
  split; cbn; rewrite List_filter_comm; by apply List_filter_Permutation.
Qed.

Section toggle_keeps.
Variable taskId : string.
Variable b : bool.

Let has_id := fun task : Task.t => strict_eq (Task.id task) taskId.
Let other := fun task : Task.t => negb (strict_eq (Task.id task) taskId).
Let mark := fun task : Task.t =>
  if strict_eq (Task.id task) taskId then Task.with_completed task b else task.

Lemma mark_hit (task : Task.t) :
  strict_eq (Task.id task) taskId = true → mark task = Task.with_completed task b.
Proof. unfold mark. by intros ->. Qed.

Lemma mark_miss (task : Task.t) :
  strict_eq (Task.id task) taskId = false → mark task = task.
Proof. unfold mark. by intros ->. Qed.

Lemma flag_is_with_completed (task : Task.t) :
  flag_is b (Task.with_completed task b) = true
  ∧ flag_is (negb b) (Task.with_completed task b) = false.
Proof. by destruct b. Qed.

Lemma mark_absent (l : list Task.t) :
  taskId ∉ List.map Task.id l → List.map mark l = l.
Proof.
  induction l as [|task l IH]; [done|]. cbn.
  intros [Hne Hl]%not_elem_of_cons.
  apply not_eq_sym, strict_eq_false in Hne. by rewrite (mark_miss task Hne), IH.
Qed.

Lemma mark_filter_source (l : list Task.t) :
  List.filter (flag_is (negb b)) (List.map mark l)
  = List.filter other (List.filter (flag_is (negb b)) l).
Proof.
  induction l as [|task l IH]; [done|]. cbn [List.map List.filter].
  destruct (strict_eq (Task.id task) taskId) eqn:Hid.
  - rewrite (mark_hit task Hid), (proj2 (flag_is_with_completed task)).
    destruct (flag_is (negb b) task); [|done].
    cbn [List.filter]. unfold other at 1. by rewrite Hid.
  - rewrite (mark_miss task Hid).
    destruct (flag_is (negb b) task); [|done].
    cbn [List.filter]. unfold other at 1. rewrite Hid. cbn [negb]. by rewrite IH.
Qed.

Lemma mark_filter_target (l : list Task.t) (task : Task.t) :
  NoDup (List.map Task.id l) →
  List.find has_id l = Some task →
  Task.completed task = negb b →
  List.filter (flag_is b) (List.map mark l)
  ≡ₚ List.filter (flag_is b) l ++ [Task.with_completed task b].
Proof.
  induction l as [|x l IH]; [done|]. cbn [List.map List.find].
  intros [Hfresh Hrest]%NoDup_cons Hfind Hflag. unfold has_id at 1 in Hfind.
  cbn [List.filter].
  destruct (strict_eq (Task.id x) taskId) eqn:Hid.
  - injection Hfind as ->. rewrite (mark_hit task Hid).
    apply strict_eq_true in Hid. rewrite Hid in Hfresh.
    rewrite (mark_absent l Hfresh), (proj1 (flag_is_with_completed task)).
    assert (Hout : flag_is b task = false) by (destruct b; cbn; by rewrite Hflag).
    rewrite Hout. apply Permutation_cons_append.
  - rewrite (mark_miss x Hid).
    destruct (flag_is b x); [apply perm_skip|]; by apply IH.
Qed.

(** [toggleTaskStatus] keeps the exact partition when the ids of the full
    mirror are pairwise different and the task, if the mirror holds it,
    has the other flag. *)
Lemma toggleTaskStatus_exact_partition (st : State) (store : Store) :
  NoDup (List.map Task.id (tasks st)) →
  (∀ task, List.find has_id (tasks st) = Some task → Task.completed task = negb b) →
  exact_partition st → exact_partition (exec (toggleTaskStatus st taskId b) store st).
Proof.
  intros Hkeys Hflag Hst. unfold toggleTaskStatus. cbn.
  destruct (store _); cbn; [done|]. fold has_id mark other.
  destruct (List.find has_id (tasks st)) as [task|] eqn:Hfind.
  - specialize (Hflag task eq_refl).
    pose proof (mark_filter_target (tasks st) task Hkeys Hfind Hflag) as Htarget.
    pose proof (mark_filter_source (tasks st)) as Hsource.
    pose proof (proj1 (exact_partition_flags st) Hst) as Hparts.
    pose proof (Hparts b) as Hb. pose proof (Hparts (negb b)) as Hnb.
    apply (proj2 (exact_partition_flags _)). intros b'. clear Hst Hparts.
    destruct b, b'; cbn in *; rewrite ?Htarget, ?Hsource;
      first [ by apply Permutation_app_tail | by apply List_filter_Permutation ].
  - assert (Hsame : List.map mark (tasks st) = tasks st).
    { apply mark_absent. intros (task & Hid & Hin)%list_elem_of_In%in_map_iff.
      apply (find_none _ _ Hfind) in Hin. unfold has_id in Hin.
      by apply strict_eq_false in Hin. }
    destruct Hst as [Hc Hn]. destruct b; cbn; split; cbn; by rewrite Hsame.
Qed.
End toggle_keeps.

(** C1 on the code.  After a load the partitions are the exact partition
    of the full mirror.  A successful [editTask] that renames [t1] then
    writes the new name to the entry of the incomplete partition and not to
    the full mirror: the partitions are no longer the partition of the full
    mirror. *)
Theorem editTask_breaks_exact_partition :
  exact_partition Examples.loaded
  ∧ perform (EditTask "t1" "New" "") Examples.online Examples.loaded = Examples.renamed
  ∧ tasks Examples.renamed = [Task.mk "t1" "s1" "Old" false "T1" None]
  ∧ notCompletedTasks Examples.renamed = [Task.mk "t1" "s1" "New" false "T1" None]
  ∧ ¬ exact_partition Examples.renamed.
Proof.
  split; [split; vm_compute; reflexivity|].
  do 3 (split; [vm_compute; reflexivity|]).
  intros [_ H]. vm_compute in H. apply Permutation_singleton_inj in H. discriminate H.
Qed.

(** The second way out of the exact partition: a task marked completed
    twice is twice in the completed partition and once in the full mirror. *)
Lemma toggle_twice_breaks_exact_partition : ¬ exact_partition Examples.completed_twice.
Proof.
  intros [H _]. vm_compute in H. apply Permutation_length in H. discriminate H.
Qed.

End exact.

(** * Further properties of the handlers *)

(** ** [fetchData] *)

(** X1. When both selects succeed, [fetchData] replaces the mirrors by what
    the store returned ([[]] for [null]) and recomputes both partitions from
    the returned tasks, in their order: whatever the state was, the
    partitions are then the exact partition of the full mirror and their
    lengths add up to the number of tasks; [loading] is off and the form
    cells are left alone. *)
Theorem fetchData_success_replaces
  (st s : PartitionedManager.State) (store : Store)
  (subjectsData : option (list Subject.t)) (tasksData : option (list Task.t)) :
  store SelectSubjects = Success subjectsData →
  store SelectTasks = Success tasksData →
  let after := exec (PartitionedManager.fetchData st) store s in
  requests (PartitionedManager.fetchData st) store = [SelectSubjects; SelectTasks]
  ∧ PartitionedManager.subjects after = or_empty subjectsData
  ∧ PartitionedManager.tasks after = or_empty tasksData
  ∧ PartitionedManager.completedTasks after
    = List.filter (fun task => Task.completed task) (or_empty tasksData)
  ∧ PartitionedManager.notCompletedTasks after
    = List.filter (fun task => negb (Task.completed task)) (or_empty tasksData)
  ∧ PartitionedManager.exact_partition after
  ∧ length (PartitionedManager.completedTasks after)
    + length (PartitionedManager.notCompletedTasks after)
    = length (PartitionedManager.tasks after)
  ∧ PartitionedManager.showsLoading after = false
  ∧ PartitionedManager.newSubjectName after = PartitionedManager.newSubjectName s
  ∧ PartitionedManager.newTaskName after = PartitionedManager.newTaskName s
  ∧ PartitionedManager.selectedSubjectId after = PartitionedManager.selectedSubjectId s
  ∧ PartitionedManager.taskEditId after = PartitionedManager.taskEditId s.
Proof.
  intros Hsubjects Htasks after. subst after.
  unfold PartitionedManager.fetchData. cbn. rewrite Hsubjects. cbn.
  rewrite Htasks. cbn.
  do 5 (split; [reflexivity|]). split; [split; reflexivity|].
  split; [|done].
  induction (or_empty tasksData) as [|task l IH]; [done|]. cbn.
  destruct (Task.completed task); cbn; lia.
Qed.

Lemma fetchData_success_replaces_witness :
  PartitionedManager.tasks
    (exec (PartitionedManager.fetchData Examples.renamed) Examples.online Examples.renamed)
  = [Examples.t1]
  ∧ PartitionedManager.exact_partition
      (exec (PartitionedManager.fetchData Examples.renamed) Examples.online
         Examples.renamed).
Proof.
  pose proof (fetchData_success_replaces Examples.renamed Examples.renamed Examples.online
                (Some []) (Some [Examples.t1]) eq_refl eq_refl)
    as (_ & _ & Htasks & _ & _ & Hexact & _).
  split; [exact Htasks | exact Hexact].
Defined.

(** X2. [fetchData] is all or nothing: when the select of the subjects or
    the select of the tasks fails, the only cell written is [loading], set to
    [false] (so subjects already fetched are dropped when the tasks fail); the
    error is logged once and not rethrown; and after a failed select of the
    subjects the tasks are not requested. *)
Theorem fetchData_failure_keeps_mirrors
  (st s : PartitionedManager.State) (store : Store) :
  fails store SelectSubjects = true ∨ fails store SelectTasks = true →
  exec (PartitionedManager.fetchData st) store s
  = PartitionedManager.setLoading (Value false) s
  ∧ console (PartitionedManager.fetchData st) store = ["Error fetching data:"]
  ∧ uncaught (PartitionedManager.fetchData st) store = None
  ∧ (fails store SelectSubjects = true →
     requests (PartitionedManager.fetchData st) store = [SelectSubjects])
  ∧ (fails store SelectSubjects = false →
     requests (PartitionedManager.fetchData st) store = [SelectSubjects; SelectTasks]).
Proof.
  unfold fails, PartitionedManager.fetchData. cbn.
  destruct (store SelectSubjects) as [?|subjectsData]; cbn.
  - intros _. split_and!; done.
  - destruct (store SelectTasks) as [?|tasksData]; cbn.
    + intros _. split_and!; done.
    + intros [?|?]; discriminate.
Qed.

Lemma fetchData_failure_keeps_mirrors_witness :
  exec (PartitionedManager.fetchData Examples.renamed) Examples.offline Examples.renamed
  = PartitionedManager.setLoading (Value false) Examples.renamed
  ∧ requests (PartitionedManager.fetchData Examples.renamed) Examples.offline
    = [SelectSubjects].
Proof.
  pose proof (fetchData_failure_keeps_mirrors Examples.renamed Examples.renamed
                Examples.offline (or_introl eq_refl)) as (H & _ & _ & H' & _).
  split; [exact H | exact (H' eq_refl)].
Defined.

(** ** Errors never leave a handler *)

(** A handler with one request in a [try] whose [catch] logs. *)
Ltac handler_asks_once store :=
  cbn;
  match goal with
  | |- context [store ?r] =>
      let H := fresh "Hanswer" in
      destruct (store r) eqn:H;
      cbn; repeat (case_match; cbn);
      (split; [done|]; split; [lia|]; split);
      try done;
      try (intros _; repeat apply List.Forall_cons; try apply List.Forall_nil;
           unfold fails; by rewrite H);
      try (intros [Hf _]%Forall_cons; unfold fails in Hf; by rewrite H in Hf)
  end.

(** A handler that returned at its guard. *)
Ltac handler_returns :=
  cbn; split; [done|]; split; [lia|]; split; [intros _; apply List.Forall_nil | done].

(** [fetchData], with its two requests. *)
Ltac handler_fetches store :=
  unfold PartitionedManager.fetchData, TaskManager.fetchData, fails; cbn;
  destruct (store SelectSubjects) eqn:?; cbn;
  [ | destruct (store SelectTasks) eqn:?; cbn ];
  (split; [done|]; split; [cbn; lia|]; split);
  try done;
  try (intros _; repeat apply List.Forall_cons; try apply List.Forall_nil;
       by repeat (case_match; simplify_eq));
  try (intros [Hf _]%Forall_cons; by repeat (case_match; simplify_eq));
  try (intros (_ & [Hf _]%Forall_cons)%Forall_cons; by repeat (case_match; simplify_eq)).

(** X3. No handler of either component ends with an error of its own:
    whatever the store answers, every thrown error is caught.  A handler
    writes to the console at most once, and does so exactly when one of the
    requests it sent failed. *)
Theorem handlers_catch_every_error
  (st : PartitionedManager.State) (st' : TaskManager.State) (store : Store)
  (random : nat) (updatedName updatedSubjectId taskId : string) (completed : bool) :
  Forall (fun p : Prog PartitionedManager.State unit =>
            uncaught p store = None
            ∧ (length (console p store) ≤ 1)%nat
            ∧ (console p store = [] ↔
               Forall (fun r => fails store r = false) (requests p store)))
    [PartitionedManager.fetchData st;
     PartitionedManager.addSubject st random;
     PartitionedManager.addTask st;
     PartitionedManager.editTask st updatedName updatedSubjectId;
     PartitionedManager.deleteTask st taskId;
     PartitionedManager.toggleTaskStatus st taskId completed]
  ∧ Forall (fun p : Prog TaskManager.State unit =>
              uncaught p store = None
              ∧ (length (console p store) ≤ 1)%nat
              ∧ (console p store = [] ↔
                 Forall (fun r => fails store r = false) (requests p store)))
      [TaskManager.fetchData st';
       TaskManager.addSubject st' random;
       TaskManager.addTask st';
       TaskManager.toggleTaskStatus st' taskId completed].
Proof.
  split; repeat apply List.Forall_cons; try apply List.Forall_nil.
  - handler_fetches store.
  - unfold PartitionedManager.addSubject. destruct (negb _); [handler_returns|].
    handler_asks_once store.
  - unfold PartitionedManager.addTask. destruct (_ || _)%bool; [handler_returns|].
    handler_asks_once store.
  - unfold PartitionedManager.editTask. handler_asks_once store.
  - unfold PartitionedManager.deleteTask. handler_asks_once store.
  - unfold PartitionedManager.toggleTaskStatus. handler_asks_once store.
  - handler_fetches store.
  - unfold TaskManager.addSubject. destruct (negb _); [handler_returns|].
    handler_asks_once store.
  - unfold TaskManager.addTask. destruct (_ || _)%bool; [handler_returns|].
    handler_asks_once store.
  - unfold TaskManager.toggleTaskStatus. handler_asks_once store.
Qed.

(** ** Sessions without edits *)

Section flips_only.
Import PartitionedManager.

Lemma NoDup_ids_filter (f : Task.t → bool) (l : list Task.t) :
  NoDup (List.map Task.id l) → NoDup (List.map Task.id (List.filter f l)).
Proof.
  induction l as [|task l IH]; [done|]. cbn.
  intros [Hfresh Hrest]%NoDup_cons. destruct (f task); cbn; [|by apply IH].
  apply NoDup_cons. split; [|by apply IH].
  intros (x & Hx & [Hin _]%filter_In)%list_elem_of_In%in_map_iff.
  apply Hfresh, list_elem_of_In, in_map_iff. by exists x.
Qed.

Lemma map_id_mark (taskId : string) (b : bool) (l : list Task.t) :
  List.map Task.id
    (List.map (fun task => if strict_eq (Task.id task) taskId
                           then Task.with_completed task b else task) l)
  = List.map Task.id l.
Proof.
  rewrite List.map_map. apply List.map_ext. intros task.
  by destruct (strict_eq (Task.id task) taskId).
Qed.

Lemma perform_consistent (op : Op) (store : Store) (s : State) :
  keys_respected op store s = true →
  row_not_completed op store = true →
  flips op s = true →
  consistent s → consistent (perform op store s).
Proof.
  unfold consistent, perform. intros Hkeys Hrow Hflips [Hexact Hnodup].
  destruct op as [|name random|name subjectId|taskId newName newSubjectId
                 |taskId completed|taskId]; cbn [prepare handler].
  - split; [by apply fetchData_exact_partition|].
    unfold fetchData. cbn in Hkeys |- *.
    destruct (store SelectSubjects); cbn; [done|].
    destruct (store SelectTasks) as [?|[rows|]]; cbn; [done| |constructor].
    by apply bool_decide_eq_true in Hkeys.
  - split; [by apply addSubject_exact_partition|].
    unfold addSubject. destruct (negb _); cbn; [done|].
    destruct (store _); by cbn.
  - cbn in Hkeys, Hrow.
    set (st := setSelectedSubjectId (Value subjectId) (setNewTaskName (Value name) s)).
    assert (Hst : exact_partition st) by done.
    split.
    + apply addTask_exact_partition; [|done]. subst st. cbn. intros data Hdata.
      rewrite Hdata in Hrow. by apply negb_true_iff in Hrow.
    + subst st. unfold addTask. cbn. destruct (_ || _)%bool; cbn; [done|].
      destruct (store _) as [?|data]; cbn; [done|].
      apply bool_decide_eq_true in Hkeys. by apply NoDup_cons.
  - discriminate Hflips.
  - cbn in Hflips. split.
    + apply toggleTaskStatus_exact_partition; [done| |done].
      intros task Hfind. rewrite Hfind in Hflips.
      apply negb_true_iff in Hflips. by destruct (Task.completed task), completed.
    + unfold toggleTaskStatus. cbn. destruct (store _); cbn; [done|].
      destruct completed; destruct (List.find _ _); cbn; by rewrite map_id_mark.
  - split; [by apply deleteTask_exact_partition|].
    unfold deleteTask. cbn. destruct (store _); cbn; [done|].
    by apply NoDup_ids_filter.
Qed.

Lemma run_consistent (session : list (Op * Store)) (s : State) :
  session_flips session s = true → consistent s → consistent (run session s).
Proof.
  revert s. induction session as [|[op store] rest IH]; intros s Hok Hs; [done|].
  cbn in Hok |- *. apply andb_true_iff in Hok as [Hok Hrest].
  apply andb_true_iff in Hok as [Hok Hflips].
  apply andb_true_iff in Hok as [Hkeys Hrow].
  apply IH; [done|]. by apply perform_consistent.
Qed.

(** X4. In a session from the initial state that has no [editTask], whose
    toggles ask for the flag the task does not have yet, and in which the
    store keys its rows by id and returns inserted tasks not completed, the
    two partitions stay the exact partition of the full mirror by
    [completed] and the ids of the mirror stay pairwise different: loads,
    inserts, flips and deletes, failed or not, keep the three containers in
    step. *)
Theorem exact_partition_without_edits (session : list (Op * Store)) :
  session_flips session initial = true →
  exact_partition (run session initial)
  ∧ NoDup (List.map Task.id (tasks (run session initial))).
Proof.
  intros Hok. apply (run_consistent session initial Hok).
  split; [apply exact_partition_initial | constructor].
Qed.

End flips_only.

Lemma exact_partition_without_edits_witness :
  PartitionedManager.exact_partition
    (PartitionedManager.run Examples.flipping_session PartitionedManager.initial)
  ∧ NoDup (List.map Task.id
             (PartitionedManager.tasks
                (PartitionedManager.run Examples.flipping_session
                   PartitionedManager.initial))).
Proof.
  apply (exact_partition_without_edits Examples.flipping_session).
  vm_compute. reflexivity.
Defined.

(** ** Ids the containers do not hold *)

Lemma filter_other_absent (taskId : string) (l : list Task.t) :
  taskId ∉ List.map Task.id l →
  List.filter (fun task => negb (strict_eq (Task.id task) taskId)) l = l.
Proof.
  induction l as [|task l IH]; [done|]. cbn.
  intros [Hne Hl]%not_elem_of_cons.
  apply not_eq_sym, strict_eq_false in Hne. rewrite Hne. cbn. by rewrite IH.
Qed.

Lemma find_absent (taskId : string) (l : list Task.t) :
  taskId ∉ List.map Task.id l →
  List.find (fun task => strict_eq (Task.id task) taskId) l = None.
Proof.
  induction l as [|task l IH]; [done|]. cbn.
  intros [Hne Hl]%not_elem_of_cons.
  apply not_eq_sym, strict_eq_false in Hne. rewrite Hne. by apply IH.
Qed.

(** X5. [toggleTaskStatus] and [deleteTask] do not look the id up before
    they ask the store: for an id the full mirror does not hold the request
    is sent all the same.  Whatever the store answers, the toggle then leaves
    the state as it is, in every cell, and so does the delete when neither
    partition holds the id. *)
Theorem unknown_id_changes_nothing
  (st : PartitionedManager.State) (store : Store) (taskId : string) (completed : bool) :
  taskId ∉ List.map Task.id (PartitionedManager.tasks st) →
  requests (PartitionedManager.toggleTaskStatus st taskId completed) store
  = [UpdateCompleted taskId completed]
  ∧ exec (PartitionedManager.toggleTaskStatus st taskId completed) store st = st
  ∧ requests (PartitionedManager.deleteTask st taskId) store = [DeleteTask taskId]
  ∧ (taskId ∉ List.map Task.id (PartitionedManager.completedTasks st) →
     taskId ∉ List.map Task.id (PartitionedManager.notCompletedTasks st) →
     exec (PartitionedManager.deleteTask st taskId) store st = st).
Proof.
  intros Habsent.
  unfold PartitionedManager.toggleTaskStatus, PartitionedManager.deleteTask. cbn.
  split; [by destruct (store _), completed; cbn; rewrite ?find_absent|].
  split.
  - destruct (store _); cbn; [done|].
    rewrite (find_absent taskId _ Habsent).
    destruct completed; cbn; unfold PartitionedManager.setTasks; cbn;
      rewrite (mark_absent taskId _ _ Habsent); by destruct st.
  - split; [by destruct (store _)|]. intros Hc Hn.
    destruct (store _); cbn; [done|].
    unfold PartitionedManager.setCompletedTasks, PartitionedManager.setNotCompletedTasks,
      PartitionedManager.setTasks. cbn.
    rewrite !filter_other_absent by done. by destruct st.
Qed.

Lemma unknown_id_changes_nothing_witness :
  requests (PartitionedManager.toggleTaskStatus Examples.loaded "t9" true) Examples.online
  = [UpdateCompleted "t9" true]
  ∧ exec (PartitionedManager.toggleTaskStatus Examples.loaded "t9" true) Examples.online
         Examples.loaded = Examples.loaded.
Proof.
  assert (Habsent : "t9" ∉ List.map Task.id (PartitionedManager.tasks Examples.loaded)).
  { vm_compute. intros [Heq | Hin]%elem_of_cons; [discriminate Heq|].
    by apply elem_of_nil in Hin. }
  pose proof (unknown_id_changes_nothing Examples.loaded Examples.online "t9" true Habsent)
    as (H & H' & _).
  split; [exact H | exact H'].
Defined.

(** ** [editTask] without a task, and what it leaves alone *)

Lemma find_never {A} (l : list A) : List.find (fun _ => false) l = None.
Proof. by induction l. Qed.

(** X6. With no task selected ([taskEditId] is [null]) [editTask] still
    sends an update, for the id [null] and with the arguments as they are,
    empty or not; whatever the store answers, the full mirror and both
    partitions stay as they are. *)
Theorem editTask_without_selection
  (st : PartitionedManager.State) (store : Store) (updatedName updatedSubjectId : string) :
  PartitionedManager.taskEditId st = None →
  let after := exec (PartitionedManager.editTask st updatedName updatedSubjectId) store st in
  requests (PartitionedManager.editTask st updatedName updatedSubjectId) store
  = [UpdateTask None updatedName updatedSubjectId]
  ∧ PartitionedManager.tasks after = PartitionedManager.tasks st
  ∧ PartitionedManager.completedTasks after = PartitionedManager.completedTasks st
  ∧ PartitionedManager.notCompletedTasks after = PartitionedManager.notCompletedTasks st.
Proof.
  intros Hnone after. subst after. unfold PartitionedManager.editTask.
  rewrite Hnone. cbn. rewrite !find_never. cbn. rewrite !or_else_empty_r.
  destruct (store _); cbn; [done|]. by rewrite !List.map_id.
Qed.

Lemma editTask_without_selection_witness :
  requests (PartitionedManager.editTask Examples.loaded "" "") Examples.online
  = [UpdateTask None "" ""].
Proof.
  exact (proj1 (editTask_without_selection Examples.loaded Examples.online "" "" eq_refl)).
Defined.

(** X7. Whatever the store answers, [editTask] keeps the length and the
    order of both partitions and, entry by entry, the [id], the [completed]
    flag, [created_at] and the joined [subjects] record; an entry of another
    id than [taskEditId] is kept whole.  So no edit moves a task between the
    partitions, and a task reassigned to another subject keeps the joined
    record of the subject it had. *)
Theorem editTask_keeps_entries_in_place
  (st s : PartitionedManager.State) (store : Store) (updatedName updatedSubjectId : string) :
  let after := exec (PartitionedManager.editTask st updatedName updatedSubjectId) store s in
  let kept := fun before now : Task.t =>
    Task.id now = Task.id before
    ∧ Task.completed now = Task.completed before
    ∧ Task.created_at now = Task.created_at before
    ∧ Task.subjects now = Task.subjects before
    ∧ (strict_eq_nullable (Task.id before) (PartitionedManager.taskEditId st) = false →
       now = before) in
  Forall2 kept (PartitionedManager.notCompletedTasks s)
    (PartitionedManager.notCompletedTasks after)
  ∧ Forall2 kept (PartitionedManager.completedTasks s)
      (PartitionedManager.completedTasks after).
Proof.
  intros after kept.
  assert (Hrefl : ∀ l, Forall2 kept l l).
  { intros l. induction l; constructor; [by unfold kept | done]. }
  assert (Hmap : ∀ name subjectId l,
            Forall2 kept l
              (List.map (fun task =>
                 if strict_eq_nullable (Task.id task) (PartitionedManager.taskEditId st)
                 then Task.with_name_subject task name subjectId else task) l)).
  { intros name subjectId l. induction l as [|task l IH]; constructor; [|done].
    unfold kept. by destruct (strict_eq_nullable _ _). }
  subst after. unfold PartitionedManager.editTask. cbn.
  destruct (store _); cbn; [done|]. split; apply Hmap.
Qed.

(** ** What the handlers leave alone *)

(** X8. Whatever the store answers: [addSubject] writes none of the task
    containers; [addTask] writes neither the subjects nor the completed
    partition; [toggleTaskStatus] and [deleteTask] write neither the subjects
    nor any cell of the forms and dialogs; [fetchData] writes no cell of the
    forms and dialogs. *)
Theorem handlers_frames
  (st s : PartitionedManager.State) (store : Store) (random : nat) (taskId : string)
  (completed : bool) :
  (let after := exec (PartitionedManager.addSubject st random) store s in
   PartitionedManager.tasks after = PartitionedManager.tasks s
   ∧ PartitionedManager.completedTasks after = PartitionedManager.completedTasks s
   ∧ PartitionedManager.notCompletedTasks after = PartitionedManager.notCompletedTasks s
   ∧ PartitionedManager.newTaskName after = PartitionedManager.newTaskName s
   ∧ PartitionedManager.selectedSubjectId after = PartitionedManager.selectedSubjectId s
   ∧ PartitionedManager.taskEditId after = PartitionedManager.taskEditId s)
  ∧ (let after := exec (PartitionedManager.addTask st) store s in
     PartitionedManager.subjects after = PartitionedManager.subjects s
     ∧ PartitionedManager.completedTasks after = PartitionedManager.completedTasks s
     ∧ PartitionedManager.newSubjectName after = PartitionedManager.newSubjectName s
     ∧ PartitionedManager.taskEditId after = PartitionedManager.taskEditId s)
  ∧ Forall (fun p : Prog PartitionedManager.State unit =>
              let after := exec p store s in
              PartitionedManager.subjects after = PartitionedManager.subjects s
              ∧ PartitionedManager.newSubjectName after = PartitionedManager.newSubjectName s
              ∧ PartitionedManager.newTaskName after = PartitionedManager.newTaskName s
              ∧ PartitionedManager.selectedSubjectId after
                = PartitionedManager.selectedSubjectId s
              ∧ PartitionedManager.taskEditId after = PartitionedManager.taskEditId s
              ∧ PartitionedManager.editTaskModalOpen after
                = PartitionedManager.editTaskModalOpen s
              ∧ PartitionedManager.addTaskModalOpen after
                = PartitionedManager.addTaskModalOpen s
              ∧ PartitionedManager.addSubjectModalOpen after
                = PartitionedManager.addSubjectModalOpen s
              ∧ PartitionedManager.completedTasksToggle after
                = PartitionedManager.completedTasksToggle s
              ∧ PartitionedManager.loading after = PartitionedManager.loading s)
      [PartitionedManager.toggleTaskStatus st taskId completed;
       PartitionedManager.deleteTask st taskId]
  ∧ (let after := exec (PartitionedManager.fetchData st) store s in
     PartitionedManager.newSubjectName after = PartitionedManager.newSubjectName s
     ∧ PartitionedManager.newTaskName after = PartitionedManager.newTaskName s
     ∧ PartitionedManager.selectedSubjectId after = PartitionedManager.selectedSubjectId s
     ∧ PartitionedManager.taskEditId after = PartitionedManager.taskEditId s
     ∧ PartitionedManager.editTaskModalOpen after = PartitionedManager.editTaskModalOpen s
     ∧ PartitionedManager.addTaskModalOpen after = PartitionedManager.addTaskModalOpen s
     ∧ PartitionedManager.addSubjectModalOpen after
       = PartitionedManager.addSubjectModalOpen s
     ∧ PartitionedManager.completedTasksToggle after
       = PartitionedManager.completedTasksToggle s).
Proof.
  split_and!.
  - unfold PartitionedManager.addSubject. destruct (negb _); [done|].
    cbn. by destruct (store _).
  - unfold PartitionedManager.addTask. destruct (_ || _)%bool; [done|].
    cbn. by destruct (store _).
  - repeat apply List.Forall_cons; try apply List.Forall_nil.
    + unfold PartitionedManager.toggleTaskStatus. cbn.
      destruct (store _); cbn; [done|].
      by destruct completed; destruct (List.find _ _).
    + unfold PartitionedManager.deleteTask. cbn. by destruct (store _).
  - unfold PartitionedManager.fetchData. cbn.
    destruct (store SelectSubjects); cbn; [done|]. by destruct (store SelectTasks).
Qed.

(** ** The two components agree *)

Lemma without_partitions_step (event : SharedEvent) (store : Store)
  (s : PartitionedManager.State) :
  without_partitions (partitioned_step event store s)
  = plain_step event store (without_partitions s).
Proof.
  destruct event as [value|value|value|[|random| |taskId completed]]; cbn; try done.
  - unfold PartitionedManager.fetchData, TaskManager.fetchData. cbn.
    destruct (store SelectSubjects); cbn; [done|]. by destruct (store SelectTasks).
  - unfold PartitionedManager.addSubject, TaskManager.addSubject. cbn.
    destruct (negb _); [done|]. cbn. by destruct (store _).
  - unfold PartitionedManager.addTask, TaskManager.addTask. cbn.
    destruct (_ || _)%bool; [done|]. cbn. by destruct (store _).
  - unfold PartitionedManager.toggleTaskStatus, TaskManager.toggleTaskStatus. cbn.
    destruct (store _); cbn; [done|].
    by destruct completed; destruct (List.find _ _).
Qed.

(** X9. The component with partitions and the component of
    [task-manager.tsx] agree on the cells they share.  A handler both have
    ([fetchData], [addSubject], [addTask], [toggleTaskStatus]), called on the
    state of the current render, sends the same requests in both; and after
    any session of typing and such calls from the initial states, against
    the same answers of the store, [subjects], [tasks], the form cells,
    [loading] and the two dialog flags are equal. *)
Theorem partitioned_refines_plain
  (session : list (SharedEvent * Store)) (op : SharedOp) (store : Store) :
  without_partitions (partitioned_run session PartitionedManager.initial)
  = plain_run session TaskManager.initial
  ∧ requests (partitioned_handler op (partitioned_run session PartitionedManager.initial))
      store
    = requests (plain_handler op (plain_run session TaskManager.initial)) store.
Proof.
  assert (Hrun : ∀ s, without_partitions (partitioned_run session s)
                      = plain_run session (without_partitions s)).
  { induction session as [|[event answers] rest IH]; intros s; [done|]. cbn.
    by rewrite IH, without_partitions_step. }
  split; [apply (Hrun PartitionedManager.initial)|].
  rewrite <- (Hrun PartitionedManager.initial : _ = plain_run session TaskManager.initial).
  generalize (partitioned_run session PartitionedManager.initial). intros s.
  destruct op as [|random| |taskId completed]; cbn.
  - unfold PartitionedManager.fetchData, TaskManager.fetchData. cbn.
    destruct (store SelectSubjects); cbn; [done|]. by destruct (store SelectTasks).
  - unfold PartitionedManager.addSubject, TaskManager.addSubject. cbn.
    destruct (negb _); [done|]. cbn. by destruct (store _).
  - unfold PartitionedManager.addTask, TaskManager.addTask. cbn.
    destruct (_ || _)%bool; [done|]. cbn. by destruct (store _).
  - unfold PartitionedManager.toggleTaskStatus, TaskManager.toggleTaskStatus. cbn.
    destruct (store _); cbn; [done|].
    by destruct completed; destruct (List.find _ _).
Qed.

(** ** [toggleTaskStatus] of the component without partitions *)




(** ** What is rendered *)

Section rendered.
Import PartitionedManager.

Lemma filter_completed_lengths (l : list Task.t) :
  length (List.filter (fun task => negb (Task.completed task)) l)
  + length (List.filter (fun task => Task.completed task) l) = length l.
Proof.
  induction l as [|task l IH]; [done|]. cbn.
  destruct (Task.completed task); cbn; lia.
Qed.

Lemma filter_completed_split (l : list Task.t) :
  List.filter (fun task => negb (Task.completed task)) l
  ++ List.filter (fun task => Task.completed task) l ≡ₚ l.
Proof.
  induction l as [|task l IH]; [done|]. cbn.
  destruct (Task.completed task); cbn.
  - rewrite <- Permutation_middle. by constructor.
  - by constructor.
Qed.

(** X11. While the partitions are the exact partition of the full mirror,
    the header of the component with partitions shows the numbers the
    component of [task-manager.tsx] computes from the mirror alone: the
    number of completed tasks, never above the total, which is the sum of
    the lengths of the two partitions. *)
Theorem header_counts_the_mirror (st : State) :
  exact_partition st →
  header st = TaskManager.header (without_partitions st)
  ∧ (length (completedTasks st) ≤ totalTasks st)%nat
  ∧ length (notCompletedTasks st) + length (completedTasks st) = totalTasks st.
Proof.
  intros [Hc Hn]. unfold header, TaskManager.header, TaskManager.completedTasks,
    TaskManager.totalTasks, totalTasks. cbn.
  apply Permutation_length in Hc, Hn. rewrite Hc, Hn.
  pose proof (filter_completed_lengths (tasks st)). split; [done|]. lia.
Qed.

Lemma header_counts_the_mirror_witness :
  header Examples.completed_once = Some (1, 1).
Proof.
  assert (Hexact : exact_partition Examples.completed_once).
  { split; vm_compute; reflexivity. }
  rewrite (proj1 (header_counts_the_mirror Examples.completed_once Hexact)).
  reflexivity.
Defined.

(** X12. While the partitions are the exact partition of the full mirror,
    the Pending list shows the tasks of the mirror that are not completed,
    the Completed list shows nothing until Show Completed Tasks is on, and
    with it on the two lists together show every task of the mirror once. *)
Theorem cards_show_the_mirror (st : State) :
  exact_partition st →
  pendingCards st
  ≡ₚ List.filter (fun task => negb (Task.completed task)) (tasks st)
  ∧ (completedTasksToggle st = false → completedCards st = [])
  ∧ (completedTasksToggle st = true → pendingCards st ++ completedCards st ≡ₚ tasks st).
Proof.
  intros [Hc Hn].
  assert (Hpending : pendingCards st = notCompletedTasks st).
  { unfold pendingCards. destruct (tasks st) eqn:Htasks; cbn.
    - cbn in Hn. by apply Permutation_nil_r in Hn as ->.
    - by destruct (notCompletedTasks st). }
  assert (Hcompleted : completedTasksToggle st = true → completedCards st = completedTasks st).
  { intros Hon. unfold completedCards. rewrite Hon. destruct (tasks st) eqn:Htasks; cbn.
    - cbn in Hc. by apply Permutation_nil_r in Hc as ->.
    - by destruct (completedTasks st). }
  split; [by rewrite Hpending|]. split.
  - intros Hoff. unfold completedCards. rewrite Hoff. cbn. by rewrite andb_false_r.
  - intros Hon. rewrite Hpending, (Hcompleted Hon), Hc, Hn.
    apply filter_completed_split.
Qed.

End rendered.

Lemma cards_show_the_mirror_witness :
  PartitionedManager.completedCards Examples.completed_once = [].
Proof.
  assert (Hexact : PartitionedManager.exact_partition Examples.completed_once).
  { split; vm_compute; reflexivity. }
  exact (proj1 (proj2 (cards_show_the_mirror Examples.completed_once Hexact)) eq_refl).
Defined.

(** ** The edit dialog *)

Lemma editTask_request
  (st : PartitionedManager.State) (store : Store) (updatedName updatedSubjectId : string) :
  requests (PartitionedManager.editTask st updatedName updatedSubjectId) store
  = [UpdateTask (PartitionedManager.taskEditId st)
       (or_else updatedName
          (or_else_undefined
             (Task.name <$>
                List.find (fun task =>
                   strict_eq_nullable (Task.id task) (PartitionedManager.taskEditId st))
                  (PartitionedManager.tasks st)) ""))
       (or_else updatedSubjectId
          (or_else_undefined
             (Task.subject_id <$>
                List.find (fun task =>
                   strict_eq_nullable (Task.id task) (PartitionedManager.taskEditId st))
                  (PartitionedManager.tasks st)) ""))].
Proof. unfold PartitionedManager.editTask. cbn. by destruct (store _). Qed.

(** X13. The name the edit dialog shows is the name Save sends: for every
    state, the input shows [newTaskName], or the name the full mirror holds
    for [taskEditId] when nothing was typed, and the request of
    [editTask(newTaskName, selectedSubjectId)] carries that very name.  The
    same holds of the subject once one is selected. *)
Theorem edit_dialog_name_is_saved (st : PartitionedManager.State) (store : Store) :
  ∃ subjectId,
    requests (PartitionedManager.editTask st (PartitionedManager.newTaskName st)
                (PartitionedManager.selectedSubjectId st)) store
    = [UpdateTask (PartitionedManager.taskEditId st)
         (PartitionedManager.editNameValue st) subjectId]
    ∧ (PartitionedManager.selectedSubjectId st ≠ "" →
       subjectId = PartitionedManager.selectedSubjectId st
       ∧ PartitionedManager.editSubjectValue st = subjectId).
Proof.
  rewrite editTask_request. eexists. split; [reflexivity|].
  intros Hselected%truthy_true.
  unfold PartitionedManager.editSubjectValue, or_else. by rewrite Hselected.
Qed.

(** X14. For a task the incomplete partition does not hold (a completed
    one), with no subject selected, the select of the edit dialog shows the
    empty option, whatever the subject of the task; Save all the same sends
    the [subject_id] the full mirror holds for the task, next to the name
    the dialog shows. *)
Theorem edit_dialog_subject_of_completed_task
  (st : PartitionedManager.State) (store : Store) (taskId : string) (task : Task.t) :
  PartitionedManager.taskEditId st = Some taskId →
  PartitionedManager.selectedSubjectId st = "" →
  taskId ∉ List.map Task.id (PartitionedManager.notCompletedTasks st) →
  List.find (fun task => strict_eq (Task.id task) taskId) (PartitionedManager.tasks st)
  = Some task →
  PartitionedManager.editSubjectValue st = ""
  ∧ requests (PartitionedManager.editTask st (PartitionedManager.newTaskName st)
                (PartitionedManager.selectedSubjectId st)) store
    = [UpdateTask (Some taskId) (PartitionedManager.editNameValue st)
         (Task.subject_id task)].
Proof.
  intros Hedit Hselected Habsent Hfind. split.
  - unfold PartitionedManager.editSubjectValue. rewrite Hselected, Hedit. cbn.
    by rewrite (find_absent taskId _ Habsent).
  - rewrite editTask_request. unfold PartitionedManager.editNameValue.
    rewrite Hselected, Hedit. cbn. rewrite Hfind. cbn.
    by rewrite !or_else_empty_r.
Qed.

Lemma edit_dialog_subject_of_completed_task_witness :
  PartitionedManager.editSubjectValue
    (PartitionedManager.clickEdit (Task.with_completed Examples.t1 true)
       Examples.completed_once) = ""
  ∧ requests
      (PartitionedManager.editTask
         (PartitionedManager.clickEdit (Task.with_completed Examples.t1 true)
            Examples.completed_once) "" "")
      Examples.online
    = [UpdateTask (Some "t1") "Old" "s1"].
Proof.
  apply (edit_dialog_subject_of_completed_task
           (PartitionedManager.clickEdit (Task.with_completed Examples.t1 true)
              Examples.completed_once)
           Examples.online "t1" (Task.with_completed Examples.t1 true)).
  - reflexivity.
  - reflexivity.
  - vm_compute. apply not_elem_of_nil.
  - reflexivity.
Defined.

(** ** Buttons and guards *)

(** X15. In both components the Add Subject and Add Task buttons are
    disabled exactly when the handler would return at its guard: a handler
    called some other way (the Enter key of the inputs) sends no request
    while its button is disabled, and sends one while it is enabled. *)
Theorem disabled_buttons_match_guards
  (st : PartitionedManager.State) (st' : TaskManager.State) (store : Store) (random : nat) :
  (PartitionedManager.addSubjectDisabled st = true ↔
   requests (PartitionedManager.addSubject st random) store = [])
  ∧ (PartitionedManager.addTaskDisabled st = true ↔
     requests (PartitionedManager.addTask st) store = [])
  ∧ (TaskManager.addSubjectDisabled st' = true ↔
     requests (TaskManager.addSubject st' random) store = [])
  ∧ (TaskManager.addTaskDisabled st' = true ↔
     requests (TaskManager.addTask st') store = []).
Proof.
  unfold PartitionedManager.addSubjectDisabled, PartitionedManager.addTaskDisabled,
    TaskManager.addSubjectDisabled, TaskManager.addTaskDisabled,
    PartitionedManager.addSubject, PartitionedManager.addTask,
    TaskManager.addSubject, TaskManager.addTask.
  split_and!.
  all: match goal with |- context [if ?guard then _ else _] => destruct guard end.
  all: cbn; split; (done || discriminate).
Qed.

(** ** Handlers that overlap

    Two handlers created by the same render close over the same state [st];
    when both are called before the next render, the setters of the second
    run on the state the first left. *)

(** X16. Two tasks of the full mirror are checked from the same render and
    both updates succeed.  The full mirror, written by an updater, marks
    both completed; the partitions, written from the closure, get the second
    move only: the first task is not appended to the completed partition and
    is not removed from the incomplete one. *)
Theorem overlapping_toggles_lose_a_move
  (st : PartitionedManager.State) (store : Store) (first second : string)
  (task1 task2 : Task.t) :
  first ≠ second →
  List.find (fun task => strict_eq (Task.id task) first) (PartitionedManager.tasks st)
  = Some task1 →
  List.find (fun task => strict_eq (Task.id task) second) (PartitionedManager.tasks st)
  = Some task2 →
  store (UpdateCompleted first true) = Success tt →
  store (UpdateCompleted second true) = Success tt →
  let after :=
    exec (PartitionedManager.toggleTaskStatus st second true) store
      (exec (PartitionedManager.toggleTaskStatus st first true) store st) in
  Task.with_completed task1 true ∈ PartitionedManager.tasks after
  ∧ Task.with_completed task2 true ∈ PartitionedManager.tasks after
  ∧ PartitionedManager.completedTasks after
    = (PartitionedManager.completedTasks st ++ [Task.with_completed task2 true])%list
  ∧ PartitionedManager.notCompletedTasks after
    = List.filter (fun task => negb (strict_eq (Task.id task) second))
        (PartitionedManager.notCompletedTasks st)
  ∧ (first ∉ List.map Task.id (PartitionedManager.completedTasks st) →
     first ∉ List.map Task.id (PartitionedManager.completedTasks after))
  ∧ (∀ task, task ∈ PartitionedManager.notCompletedTasks st → Task.id task = first →
             task ∈ PartitionedManager.notCompletedTasks after).
Proof.
  intros Hne Hfind1 Hfind2 Hok1 Hok2 after.
  destruct (find_has_id _ _ _ Hfind1) as [Hid1 Hin1].
  destruct (find_has_id _ _ _ Hfind2) as [Hid2 Hin2].
  assert (Hafter :
    PartitionedManager.tasks after
    = List.map (fun task => if strict_eq (Task.id task) second
                            then Task.with_completed task true else task)
        (List.map (fun task => if strict_eq (Task.id task) first
                               then Task.with_completed task true else task)
           (PartitionedManager.tasks st))
    ∧ PartitionedManager.completedTasks after
      = (PartitionedManager.completedTasks st ++ [Task.with_completed task2 true])%list
    ∧ PartitionedManager.notCompletedTasks after
      = List.filter (fun task => negb (strict_eq (Task.id task) second))
          (PartitionedManager.notCompletedTasks st)).
  { subst after. unfold PartitionedManager.toggleTaskStatus. cbn.
    rewrite Hok1, Hok2. cbn. rewrite Hfind1, Hfind2. cbn. done. }
  destruct Hafter as (Htasks & Hcompleted & Hpending).
  rewrite Htasks, Hcompleted, Hpending. clear after Htasks Hcompleted Hpending.
  assert (Hother : strict_eq first second = false) by by apply strict_eq_false.
  split_and!; try done.
  - apply list_elem_of_In, in_map_iff. exists (Task.with_completed task1 true). split.
    + cbn. by rewrite Hid1, Hother.
    + apply in_map_iff. exists task1. split; [|by apply list_elem_of_In].
      apply strict_eq_true in Hid1. by rewrite Hid1.
  - apply list_elem_of_In, in_map_iff.
    exists (if strict_eq (Task.id task2) first
            then Task.with_completed task2 true else task2). split.
    + apply strict_eq_true in Hid2 as Heq.
      destruct (strict_eq (Task.id task2) first); cbn; by rewrite Heq.
    + apply in_map_iff. exists task2. split; [done | by apply list_elem_of_In].
  - intros Hout Hin. rewrite List.map_app in Hin. cbn in Hin. rewrite Hid2 in Hin.
    apply elem_of_app in Hin as [Hin | Hin]; [done|].
    by apply list_elem_of_singleton in Hin.
  - intros task Hin Hid. apply list_elem_of_In, filter_In.
    split; [by apply list_elem_of_In|]. by rewrite Hid, Hother.
Qed.

Lemma overlapping_toggles_lose_a_move_witness :
  PartitionedManager.completedTasks
    (exec (PartitionedManager.toggleTaskStatus Examples.two_loaded "t2" true)
       Examples.online
       (exec (PartitionedManager.toggleTaskStatus Examples.two_loaded "t1" true)
          Examples.online Examples.two_loaded))
  = [Task.with_completed Examples.t2 true]
  ∧ Task.with_completed Examples.t1 true
    ∈ PartitionedManager.tasks
        (exec (PartitionedManager.toggleTaskStatus Examples.two_loaded "t2" true)
           Examples.online
           (exec (PartitionedManager.toggleTaskStatus Examples.two_loaded "t1" true)
              Examples.online Examples.two_loaded)).
Proof.
  assert (Hne : "t1" ≠ "t2") by discriminate.
  pose proof (overlapping_toggles_lose_a_move Examples.two_loaded Examples.online
                "t1" "t2" Examples.t1 Examples.t2 Hne eq_refl eq_refl eq_refl eq_refl)
    as (H & _ & H' & _).
  split; [exact H' | exact H].
Defined.

(** X17. Add Task is called twice from the same render (a double click) on
    a form that is filled in, and both inserts succeed.  Both calls send the
    same insert; the second call prepends its row to the containers of the
    closure, so the row of the first call is in neither the full mirror nor
    the incomplete partition unless it was there before. *)
Theorem overlapping_addTask_loses_a_row
  (st : PartitionedManager.State) (store1 store2 : Store) (row1 row2 : Task.t) :
  PartitionedManager.addTaskDisabled st = false →
  store1 (InsertTask (trim (PartitionedManager.newTaskName st))
            (PartitionedManager.selectedSubjectId st) false) = Success row1 →
  store2 (InsertTask (trim (PartitionedManager.newTaskName st))
            (PartitionedManager.selectedSubjectId st) false) = Success row2 →
  let after :=
    exec (PartitionedManager.addTask st) store2
      (exec (PartitionedManager.addTask st) store1 st) in
  requests (PartitionedManager.addTask st) store1
  = requests (PartitionedManager.addTask st) store2
  ∧ PartitionedManager.tasks after = row2 :: PartitionedManager.tasks st
  ∧ PartitionedManager.notCompletedTasks after
    = row2 :: PartitionedManager.notCompletedTasks st
  ∧ (row1 ≠ row2 → row1 ∉ PartitionedManager.tasks st →
     row1 ∉ PartitionedManager.tasks after).
Proof.
  intros Henabled Hrow1 Hrow2 after. unfold PartitionedManager.addTaskDisabled in Henabled.
  subst after. unfold PartitionedManager.addTask. rewrite Henabled. cbn.
  rewrite Hrow1, Hrow2. cbn. split_and!; try done.
  intros Hne Hout [Heq | Hin]%elem_of_cons; done.
Qed.

Lemma overlapping_addTask_loses_a_row_witness :
  PartitionedManager.tasks
    (exec (PartitionedManager.addTask Examples.filled_in)
       (Examples.answering [] Examples.t3)
       (exec (PartitionedManager.addTask Examples.filled_in) Examples.online
          Examples.filled_in))
  = [Examples.t3; Examples.t1].
Proof.
  pose proof (overlapping_addTask_loses_a_row Examples.filled_in Examples.online
                (Examples.answering [] Examples.t3) Examples.t2 Examples.t3
                eq_refl eq_refl eq_refl) as (_ & H & _).
  exact H.
Defined.

(** ** The forms share their cells *)

(** X18. The edit dialog and the add dialog write the same two cells, and
    Cancel of the edit dialog only closes it.  After Edit on a card, typing
    a name, choosing a subject and Cancel, the [+ Task] dialog opens on that
    name and subject, the task stays selected for editing, and Add Task is
    enabled or not by what was typed in the edit dialog and inserts it. *)
Theorem cancelled_edit_fills_add_form
  (s : PartitionedManager.State) (store : Store) (task : Task.t) (name subjectId : string) :
  let st :=
    PartitionedManager.openAddTask
      (PartitionedManager.cancelEdit
         (PartitionedManager.selectSubject subjectId
            (PartitionedManager.typeTaskName name (PartitionedManager.clickEdit task s)))) in
  PartitionedManager.editTaskModalOpen st = false
  ∧ PartitionedManager.addTaskModalOpen st = true
  ∧ PartitionedManager.taskEditId st = Some (Task.id task)
  ∧ PartitionedManager.newTaskName st = name
  ∧ PartitionedManager.selectedSubjectId st = subjectId
  ∧ (trim name ≠ "" → subjectId ≠ "" →
     PartitionedManager.addTaskDisabled st = false
     ∧ requests (PartitionedManager.addTask st) store
       = [InsertTask (trim name) subjectId false]).
Proof.
  intros st. subst st. cbn. split_and!; try reflexivity.
  intros Hname%truthy_true Hsubject%truthy_true.
  unfold PartitionedManager.addTaskDisabled, PartitionedManager.addTask. cbn.
  rewrite Hname, Hsubject. cbn. split; [reflexivity|]. by destruct (store _).
Qed.

Lemma cancelled_edit_fills_add_form_witness :
  requests
    (PartitionedManager.addTask
       (PartitionedManager.openAddTask
          (PartitionedManager.cancelEdit
             (PartitionedManager.selectSubject "s1"
                (PartitionedManager.typeTaskName "Old, revised"
                   (PartitionedManager.clickEdit Examples.t1 Examples.loaded))))))
    Examples.online
  = [InsertTask "Old, revised" "s1" false].
Proof.
  pose proof (cancelled_edit_fills_add_form Examples.loaded Examples.online Examples.t1
                "Old, revised" "s1") as (_ & _ & _ & _ & _ & H).
  refine (proj2 (H _ _)); [vm_compute|]; discriminate.
Defined.

(** ** [addTask], when the insert succeeds *)

(** X19. With a name that is not blank and a subject, [addTask] inserts the
    trimmed name under the subject with [completed: false]; when the insert
    succeeds the returned row, whatever its flag, becomes the first entry of
    the full mirror and of the incomplete partition, the completed partition
    is left alone, and the form is reset, which disables the button again. *)
Theorem addTask_success_prepends
  (st : PartitionedManager.State) (store : Store) (row : Task.t) :
  PartitionedManager.addTaskDisabled st = false →
  store (InsertTask (trim (PartitionedManager.newTaskName st))
           (PartitionedManager.selectedSubjectId st) false) = Success row →
  let after := exec (PartitionedManager.addTask st) store st in
  requests (PartitionedManager.addTask st) store
  = [InsertTask (trim (PartitionedManager.newTaskName st))
       (PartitionedManager.selectedSubjectId st) false]
  ∧ PartitionedManager.tasks after = row :: PartitionedManager.tasks st
  ∧ PartitionedManager.notCompletedTasks after
    = row :: PartitionedManager.notCompletedTasks st
  ∧ PartitionedManager.completedTasks after = PartitionedManager.completedTasks st
  ∧ PartitionedManager.totalTasks after = S (PartitionedManager.totalTasks st)
  ∧ PartitionedManager.newTaskName after = ""
  ∧ PartitionedManager.selectedSubjectId after = ""
  ∧ PartitionedManager.addTaskModalOpen after = false
  ∧ PartitionedManager.addTaskDisabled after = true.
Proof.
  intros Henabled Hrow after. subst after.
  unfold PartitionedManager.addTaskDisabled in Henabled.
  unfold PartitionedManager.addTask. rewrite Henabled. cbn. rewrite Hrow. cbn. done.
Qed.

Lemma addTask_success_prepends_witness :
  requests (PartitionedManager.addTask Examples.filled_in) Examples.online
  = [InsertTask "Read ch.1" "s1" false]
  ∧ PartitionedManager.tasks
      (exec (PartitionedManager.addTask Examples.filled_in) Examples.online
         Examples.filled_in)
    = [Examples.t2; Examples.t1].
Proof.
  pose proof (addTask_success_prepends Examples.filled_in Examples.online Examples.t2
                eq_refl eq_refl) as (H & H' & _).
  split; [exact H | exact H'].
Defined.

(** ** Counting entries *)

Section counting.
Import PartitionedManager.

Lemma filter_other_length (taskId : string) (l : list Task.t) :
  NoDup (List.map Task.id l) →
  taskId ∈ List.map Task.id l →
  S (length (List.filter (fun task => negb (strict_eq (Task.id task) taskId)) l))
  = length l.
Proof.
  induction l as [|task l IH]; cbn.
  - intros _ Hin. by apply elem_of_nil in Hin.
  - intros [Hfresh Hrest]%NoDup_cons Hin.
    destruct (strict_eq (Task.id task) taskId) eqn:Hid; cbn.
    + apply strict_eq_true in Hid. rewrite Hid in Hfresh.
      by rewrite (filter_other_absent taskId l Hfresh).
    + apply strict_eq_false in Hid. apply elem_of_cons in Hin as [Heq | Hin]; [done|].
      by rewrite (IH Hrest Hin).
Qed.

(** X20. In a state whose partitions are exact and whose ids are pairwise
    different, a successful [toggleTaskStatus] that flips a task of the full
    mirror moves exactly one entry: the partition of the new flag has one
    entry more, the other partition one entry less, the full mirror as many
    as before, and the partitions are exact again. *)
Theorem flip_moves_one_entry
  (st : State) (store : Store) (taskId : string) (completed : bool) (task : Task.t) :
  consistent st →
  List.find (fun task => strict_eq (Task.id task) taskId) (tasks st) = Some task →
  Task.completed task = negb completed →
  store (UpdateCompleted taskId completed) = Success tt →
  let part := fun (b : bool) (s : State) =>
    if b then completedTasks s else notCompletedTasks s in
  let after := exec (toggleTaskStatus st taskId completed) store st in
  length (part completed after) = S (length (part completed st))
  ∧ S (length (part (negb completed) after)) = length (part (negb completed) st)
  ∧ totalTasks after = totalTasks st
  ∧ consistent after.
Proof.
  intros [Hexact Hkeys] Hfind Hflag Hok part after.
  destruct (find_has_id _ _ _ Hfind) as [Hid Hin].
  assert (Hafter : consistent after).
  { split.
    - apply toggleTaskStatus_exact_partition; [done| |done].
      intros task' Hfind'. congruence.
    - subst after. unfold toggleTaskStatus. cbn. rewrite Hok. cbn.
      destruct completed; rewrite Hfind; cbn; by rewrite map_id_mark. }
  assert (Htotal : totalTasks after = totalTasks st).
  { subst after. unfold totalTasks, toggleTaskStatus. cbn. rewrite Hok. cbn.
    destruct completed; rewrite Hfind; cbn; apply length_map. }
  assert (Htarget : part completed after
                    = (part completed st ++ [Task.with_completed task completed])%list).
  { subst after part. unfold toggleTaskStatus. cbn. rewrite Hok. cbn.
    destruct completed; by rewrite Hfind. }
  assert (Hsum : ∀ s, exact_partition s →
            length (part completed s) + length (part (negb completed) s) = totalTasks s).
  { intros s [Hc Hn]. apply Permutation_length in Hc, Hn.
    pose proof (filter_completed_lengths (tasks s)) as Hlen.
    unfold part, totalTasks. destruct completed; cbn; lia. }
  pose proof (Hsum st Hexact) as Hbefore.
  pose proof (Hsum after (proj1 Hafter)) as Hnow.
  clearbody after. rewrite Htarget, length_app in Hnow |- *.
  cbn [length] in Hnow |- *. split_and!; [lia | lia | done | done].
Qed.

(** X21. In a state whose partitions are exact and whose ids are pairwise
    different, a successful [deleteTask] of a task of the full mirror
    removes exactly one entry of the full mirror and one of the two
    partitions together, and the partitions are exact again. *)
Theorem delete_removes_one_entry
  (st : State) (store : Store) (taskId : string) :
  consistent st →
  taskId ∈ List.map Task.id (tasks st) →
  store (DeleteTask taskId) = Success tt →
  let after := exec (deleteTask st taskId) store st in
  S (totalTasks after) = totalTasks st
  ∧ S (length (notCompletedTasks after) + length (completedTasks after))
    = length (notCompletedTasks st) + length (completedTasks st)
  ∧ consistent after.
Proof.
  intros [Hexact Hkeys] Hin Hok after.
  assert (Hafter : consistent after).
  { split; [by apply deleteTask_exact_partition|].
    subst after. unfold deleteTask. cbn. rewrite Hok. cbn. by apply NoDup_ids_filter. }
  assert (Htotal : S (totalTasks after) = totalTasks st).
  { subst after. unfold totalTasks, deleteTask. cbn. rewrite Hok. cbn.
    by apply filter_other_length. }
  assert (Hsum : ∀ s, exact_partition s →
            length (notCompletedTasks s) + length (completedTasks s) = totalTasks s).
  { intros s [Hc Hn]. apply Permutation_length in Hc, Hn.
    pose proof (filter_completed_lengths (tasks s)). unfold totalTasks. lia. }
  rewrite (Hsum st Hexact), (Hsum after (proj1 Hafter)). done.
Qed.

End counting.

Lemma flip_moves_one_entry_witness :
  length (PartitionedManager.completedTasks
            (exec (PartitionedManager.toggleTaskStatus Examples.two_loaded "t2" true)
               Examples.online Examples.two_loaded)) = 1
  ∧ S (length (PartitionedManager.notCompletedTasks
                 (exec (PartitionedManager.toggleTaskStatus Examples.two_loaded "t2" true)
                    Examples.online Examples.two_loaded))) = 2.
Proof.
  assert (Hconsistent : PartitionedManager.consistent Examples.two_loaded).
  { split; [split; vm_compute; reflexivity|].
    vm_compute. apply NoDup_cons. split.
    - intros Hin. apply list_elem_of_singleton in Hin. discriminate Hin.
    - apply NoDup_singleton. }
  pose proof (flip_moves_one_entry Examples.two_loaded Examples.online "t2" true
                Examples.t2 Hconsistent eq_refl eq_refl eq_refl) as (H & H' & _).
  split; [exact H | exact H'].
Defined.

Lemma delete_removes_one_entry_witness :
  S (PartitionedManager.totalTasks
       (exec (PartitionedManager.deleteTask Examples.two_loaded "t2") Examples.online
          Examples.two_loaded)) = 2.
Proof.
  assert (Hconsistent : PartitionedManager.consistent Examples.two_loaded).
  { split; [split; vm_compute; reflexivity|].
    vm_compute. apply NoDup_cons. split.
    - intros Hin. apply list_elem_of_singleton in Hin. discriminate Hin.
    - apply NoDup_singleton. }
  assert (Hin : "t2" ∈ List.map Task.id (PartitionedManager.tasks Examples.two_loaded)).
  { vm_compute. apply list_elem_of_further, list_elem_of_here. }
  exact (proj1 (delete_removes_one_entry Examples.two_loaded Examples.online "t2"
                  Hconsistent Hin eq_refl)).
Defined.
